(** * semihosting-log: the dispatcher, the registry and the line formatter

    A shallow embedding of [src/log.c].  The logger keeps one process-wide
    state [L] (lock hook, threshold, quiet flag, a table of [MAX_CALLBACKS]
    observers) and one static line buffer of [LOG_BUFFER_SIZE] bytes that
    [stdout_callback] fills and hands to the semihosting write call.

    Conventions of the model:
    - [int] and [size_t] are the 32-bit types of the ARM targets the
      semihosting traps exist on; values are [Z], conversions are written
      out as [to_int] and [to_size_t];
    - pointers are addresses in [Z], [0] is [NULL];
    - a store outside the buffer, a read past the level table and a null
      [ev->time] have no defined behaviour: the functions return [None];
    - everything the logger calls but does not define (the lock hook, the
      observers, the semihosting trap, the clock) is recorded as an
      [action] of the trace a dispatch produces, in program order.
      Observers and the lock hook are opaque: they are assumed not to call
      back into the logger. *)

From Stdlib Require Import ZArith Lia Ascii.
From stdpp Require Import base option list strings.

Local Open Scope Z_scope.

(** ** Machine integers *)

Definition INT_MAX : Z := 2 ^ 31 - 1.

(** Conversion to [size_t] (unsigned, 32 bits). *)
Definition to_size_t (z : Z) : Z := z mod 2 ^ 32.

(** Conversion to [int] (two's complement, 32 bits). *)
Definition to_int (z : Z) : Z := (z + 2 ^ 31) mod 2 ^ 32 - 2 ^ 31.

(** ** Constants of log.c *)

Definition MAX_CALLBACKS : nat := 32.
Definition SYS_WRITE : Z := 5.

Arguments MAX_CALLBACKS : simpl never.

Definition level_strings : list string :=
  ["TRACE"; "DEBUG"; "INFO"; "WARN"; "ERROR"; "FATAL"]%string.

(** [level_strings[level]]; outside the table the read is undefined. *)
Definition log_level_string (level : Z) : option string :=
  if 0 <=? level then level_strings !! Z.to_nat level else None.

(** ** Data *)

Definition nul : ascii := zero.
Definition newline : ascii := "010"%char.

(** [struct tm], the three fields "%H:%M:%S" reads. *)
Record tm := { tm_sec : Z; tm_min : Z; tm_hour : Z }.

(** One variadic argument, and the argument list [va_start] opens. *)
Inductive c_value :=
| VInt (z : Z)
| VStr (s : string).

Definition va_list := list c_value.

(** [log_Event]: declared in log.h, which is not among the sources; these
    are the fields log.c reads and writes. *)
Record log_Event := {
  ev_ap : va_list;
  ev_fmt : string;
  ev_file : string;
  ev_time : option tm;
  ev_udata : Z;
  ev_line : Z;
  ev_level : Z
}.

(** [Callback]: observer function, user data, minimum level. *)
Record Callback := { cb_fn : Z; cb_udata : Z; cb_level : Z }.

(** The static struct [L]. *)
Record LogState := {
  L_udata : Z;
  L_lock : Z;
  L_level : Z;
  L_quiet : bool;
  L_callbacks : list Callback
}.

(** Static storage is zero-initialised. *)
Definition no_callback : Callback := {| cb_fn := 0; cb_udata := 0; cb_level := 0 |}.

Definition L_init : LogState :=
  {| L_udata := 0; L_lock := 0; L_level := 0; L_quiet := false;
     L_callbacks := replicate MAX_CALLBACKS no_callback |}.

(** What a dispatch does to the outside, and which shared fields it reads. *)
Inductive shared_field :=
| FLock
| FUdata
| FLevel
| FQuiet
| FCallback (i : nat).

Inductive action :=
| ARead (f : shared_field)
| ALockHook (fn : Z) (acquire : bool) (udata : Z)
| AClock
| ASemihost (op : Z) (fd : Z) (data : list ascii)
| AObserver (i : nat) (fn : Z) (ev : log_Event).

(** ** The line buffer *)

(** [buf[i] = c], defined only inside the array. *)
Definition store (b : list ascii) (i : Z) (c : ascii) : option (list ascii) :=
  if (0 <=? i) && (i <? Z.of_nat (length b))
  then Some (<[Z.to_nat i := c]> b)
  else None.

(** Consecutive stores from offset [off]. *)
Fixpoint store_bytes (b : list ascii) (off : Z) (l : list ascii) : option (list ascii) :=
  match l with
  | [] => Some b
  | c :: l' => b' ← store b off c; store_bytes b' (off + 1) l'
  end.

(** ** The C library, by its contract *)

Definition digit (d : Z) : ascii := ascii_of_nat (48 + Z.to_nat d).

Definition two_digits (n : Z) : list ascii :=
  [digit (n / 10 mod 10); digit (n mod 10)].

(** The text "%H:%M:%S" stands for: always eight characters. *)
Definition hms (t : tm) : list ascii :=
  two_digits (tm_hour t) ++ [":"%char] ++ two_digits (tm_min t)
  ++ [":"%char] ++ two_digits (tm_sec t).

Arguments hms : simpl never.

(** [strftime(buf + off, max, "%H:%M:%S", t)]: the text and its terminator
    when both fit in [max] bytes, and the length; otherwise 0, with the
    array left indeterminate (here: as much of the text as fits). *)
Definition strftime_HMS (b : list ascii) (off max : Z) (t : tm)
  : option (list ascii * Z) :=
  let s := hms t in
  if Z.of_nat (length s) <? max
  then b' ← store_bytes b off (s ++ [nul]); Some (b', Z.of_nat (length s))
  else b' ← store_bytes b off (take (Z.to_nat max) s); Some (b', 0).

(** Decimal digits of a non-negative number; an [int] has at most ten. *)
Fixpoint udigits (fuel : nat) (n : Z) (acc : list ascii) : list ascii :=
  match fuel with
  | O => acc
  | S fuel' =>
      let acc' := digit (n mod 10) :: acc in
      if n / 10 =? 0 then acc' else udigits fuel' (n / 10) acc'
  end.

(** The text "%d" stands for. *)
Definition decimal (v : Z) : list ascii :=
  if v <? 0 then "-"%char :: udigits 10 (- v) [] else udigits 10 v [].

(** What [snprintf] and [vsnprintf] leave in [n] bytes at [off] for a full
    text [s]: nothing when [n] is 0, else up to [n - 1] characters and a
    terminator. *)
Definition sn_store (b : list ascii) (off n : Z) (s : list ascii) : option (list ascii) :=
  if n =? 0 then Some b
  else store_bytes b off (take (Z.to_nat (n - 1)) s ++ [nul]).

(** [snprintf(buf + off, n, "%d", v)]: returns the full length. *)
Definition snprintf_d (b : list ascii) (off n : Z) (v : Z) : option (list ascii * Z) :=
  let s := decimal v in
  b' ← sn_store b off n s; Some (b', Z.of_nat (length s)).

(** [vsnprintf(buf + off, n, fmt, ap)] for a format whose full expansion is
    [expansion]: returns the full length, or a negative value when the
    expansion fails or its length does not fit an [int]. *)
Definition vsnprintf (b : list ascii) (off n : Z) (expansion : option (list ascii))
  : option (list ascii * Z) :=
  match expansion with
  | Some s =>
      if Z.of_nat (length s) <=? INT_MAX
      then b' ← sn_store b off n s; Some (b', Z.of_nat (length s))
      else Some (b, -1)
  | None => Some (b, -1)
  end.

(** ** semihosting_write *)

(** The SYS_WRITE trap with descriptor {1, buf, length}: the host reads
    [length] bytes of [buf]. *)
Definition semihosting_write (b : list ascii) (len : Z) : option action :=
  if (0 <=? len) && (len <=? Z.of_nat (length b))
  then Some (ASemihost SYS_WRITE 1 (take (Z.to_nat len) b))
  else None.

Section Logger.

(** Modelled from the spec: log.h is not among the sources; the buffer
    capacity [LOG_BUFFER_SIZE] it defines is "a configurable constant". *)
Variable LOG_BUFFER_SIZE : Z.

(** The printf expansion of a format and its arguments ([None]: the C
    library reports an error). *)
Variable vformat : string → va_list → option (list ascii).

(** ** stdout_callback *)

(** The formatter's cursor: the buffer and [pos]. *)
Definition cursor : Type := list ascii * Z.

(** [buf[pos++] = c] *)
Definition put (c : ascii) (st : cursor) : option cursor :=
  b' ← store st.1 st.2 c; Some (b', to_int (st.2 + 1)).

(** [pos < sizeof(buf) - 1], compared as [size_t] *)
Definition has_room (pos : Z) : bool :=
  to_size_t pos <? to_size_t (LOG_BUFFER_SIZE - 1).

(** [if (pos < sizeof(buf) - 1) buf[pos++] = c;] *)
Definition put_if_room (c : ascii) (st : cursor) : option cursor :=
  if has_room st.2 then put c st else Some st.

(** The copy loops of lines 95-97 and 101-103: while the string has a
    character left and [pos < sizeof(buf) - 1], [buf[pos++]] takes it. *)
Fixpoint copy_cstr (s : string) (st : cursor) : option cursor :=
  match s with
  | EmptyString => Some st
  | String c s' =>
      if Ascii.eqb c nul then Some st
      else if has_room st.2 then st' ← put c st; copy_cstr s' st'
      else Some st
  end.

(** Lines 110-116: the message, bounded by what is left of the buffer. *)
Definition put_message (ev : log_Event) (st : cursor) : option cursor :=
  let '(b, pos) := st in
  if to_size_t pos <? LOG_BUFFER_SIZE then
    let remaining := to_int (to_size_t (LOG_BUFFER_SIZE - pos)) in
    '(b, msg_len) ← vsnprintf b pos (to_size_t remaining)
                      (vformat (ev_fmt ev) (ev_ap ev));
    if 0 <=? msg_len
    then Some (b, to_int (pos + (if msg_len <? remaining then msg_len else remaining - 1)))
    else Some (b, pos)
  else Some (b, pos).

(** Lines 118-121: the newline, pulled back into the buffer. *)
Definition put_newline (st : cursor) : option cursor :=
  let '(b, pos) := st in
  let pos :=
    if to_size_t (LOG_BUFFER_SIZE - 1) <=? to_size_t pos
    then to_int (to_size_t (LOG_BUFFER_SIZE - 2))
    else pos in
  put newline (b, pos).

(** [stdout_callback(ev)] on the static buffer [buf]: the buffer it leaves
    and the semihosting call it makes. *)
Definition stdout_callback (buf : list ascii) (ev : log_Event)
  : option (list ascii * action) :=
  let pos := 0 in
  t ← ev_time ev;
  '(buf, n) ← strftime_HMS buf pos (to_size_t (LOG_BUFFER_SIZE - pos)) t;
  let pos := to_int (to_size_t pos + n) in
  st ← put_if_room " "%char (buf, pos);
  level_str ← log_level_string (ev_level ev);
  st ← copy_cstr level_str st;
  st ← put_if_room " "%char st;
  st ← copy_cstr (ev_file ev) st;
  '(buf, pos) ← put_if_room ":"%char st;
  '(buf, n) ← snprintf_d buf pos (to_size_t (LOG_BUFFER_SIZE - pos)) (ev_line ev);
  let pos := to_int (pos + n) in
  st ← put_if_room ":"%char (buf, pos);
  st ← put_if_room " "%char st;
  st ← put_message ev st;
  '(buf, pos) ← put_newline st;
  a ← semihosting_write buf pos;
  Some (buf, a).

(** ** lock and unlock *)

(** [lock()] and [unlock()]: the hook, when one is installed. *)
Definition call_lock_hook (L : LogState) (acquire : bool) : list action :=
  ARead FLock ::
  (if L_lock L =? 0 then []
   else [ARead FUdata; ALockHook (L_lock L) acquire (L_udata L)]).

Definition lock (L : LogState) : list action := call_lock_hook L true.
Definition unlock (L : LogState) : list action := call_lock_hook L false.

(** ** Setters *)

Definition log_set_lock (fn udata : Z) (L : LogState) : LogState :=
  {| L_udata := udata; L_lock := fn; L_level := L_level L;
     L_quiet := L_quiet L; L_callbacks := L_callbacks L |}.

Definition log_set_level (level : Z) (L : LogState) : LogState :=
  {| L_udata := L_udata L; L_lock := L_lock L; L_level := level;
     L_quiet := L_quiet L; L_callbacks := L_callbacks L |}.

Definition log_set_quiet (enable : bool) (L : LogState) : LogState :=
  {| L_udata := L_udata L; L_lock := L_lock L; L_level := L_level L;
     L_quiet := enable; L_callbacks := L_callbacks L |}.

Definition set_callbacks (cbs : list Callback) (L : LogState) : LogState :=
  {| L_udata := L_udata L; L_lock := L_lock L; L_level := L_level L;
     L_quiet := L_quiet L; L_callbacks := cbs |}.

(** ** log_add_callback *)

(** The loop of lines 159-164 from index [i], with [n] iterations left
    ([i + n = MAX_CALLBACKS]): the table it leaves and the value returned. *)
Fixpoint add_callback_from (n i : nat) (new : Callback) (cbs : list Callback)
  : option (list Callback * Z) :=
  match n with
  | O => Some (cbs, -1)
  | S n' =>
      cb ← cbs !! i;
      if cb_fn cb =? 0 then Some (<[i := new]> cbs, 0)
      else add_callback_from n' (S i) new cbs
  end.

Definition log_add_callback (fn udata level : Z) (L : LogState) : option (LogState * Z) :=
  '(cbs, r) ← add_callback_from MAX_CALLBACKS 0
                {| cb_fn := fn; cb_udata := udata; cb_level := level |}
                (L_callbacks L);
  Some (set_callbacks cbs L, r).

(** ** init_event *)

Definition set_time_udata (t : option tm) (udata : Z) (ev : log_Event) : log_Event :=
  {| ev_ap := ev_ap ev; ev_fmt := ev_fmt ev; ev_file := ev_file ev;
     ev_time := t; ev_udata := udata; ev_line := ev_line ev;
     ev_level := ev_level ev |}.

(** [va_start(ev.ap, fmt)]: the argument list is opened afresh. *)
Definition va_start (args : va_list) (ev : log_Event) : log_Event :=
  {| ev_ap := args; ev_fmt := ev_fmt ev; ev_file := ev_file ev;
     ev_time := ev_time ev; ev_udata := ev_udata ev; ev_line := ev_line ev;
     ev_level := ev_level ev |}.

(** [init_event(ev, udata)]; [now] is what [localtime(time(NULL))] gives. *)
Definition init_event (now : tm) (ev : log_Event) (udata : Z) : log_Event * list action :=
  match ev_time ev with
  | None => (set_time_udata (Some now) udata ev, [AClock])
  | Some t => (set_time_udata (Some t) udata ev, [])
  end.

(** ** log_log *)

(** Lines 188-193: the primary sink. *)
Definition primary_sink (now : tm) (L : LogState) (buf : list ascii)
    (args : va_list) (ev : log_Event)
  : option (log_Event * list ascii * list action) :=
  if L_quiet L then Some (ev, buf, [ARead FQuiet])
  else if L_level L <=? ev_level ev then
    let '(ev, t_init) := init_event now ev 0 in
    let ev := va_start args ev in
    '(buf, a) ← stdout_callback buf ev;
    Some (ev, buf, [ARead FQuiet; ARead FLevel] ++ t_init ++ [a])
  else Some (ev, buf, [ARead FQuiet; ARead FLevel]).

(** Lines 195-203 from index [i], with [n] iterations left. *)
Fixpoint observers_from (n i : nat) (now : tm) (cbs : list Callback)
    (args : va_list) (ev : log_Event) : option (list action) :=
  match n with
  | O => Some []
  | S n' =>
      cb ← cbs !! i;
      if cb_fn cb =? 0 then Some [ARead (FCallback i)]
      else if cb_level cb <=? ev_level ev then
        let '(ev, t_init) := init_event now ev (cb_udata cb) in
        let ev := va_start args ev in
        rest ← observers_from n' (S i) now cbs args ev;
        Some (ARead (FCallback i) :: t_init ++ AObserver i (cb_fn cb) ev :: rest)
      else
        rest ← observers_from n' (S i) now cbs args ev;
        Some (ARead (FCallback i) :: rest)
  end.

(** [log_log(level, file, line, fmt, ...)] with the variadic arguments
    [args]: the buffer it leaves and the trace of the dispatch. *)
Definition log_log (now : tm) (L : LogState) (buf : list ascii)
    (level : Z) (file : string) (line : Z) (fmt : string) (args : va_list)
  : option (list ascii * list action) :=
  let ev := {| ev_ap := []; ev_fmt := fmt; ev_file := file; ev_time := None;
               ev_udata := 0; ev_line := line; ev_level := level |} in
  let t_lock := lock L in
  '(ev, buf, t_primary) ← primary_sink now L buf args ev;
  t_observers ← observers_from MAX_CALLBACKS 0 now (L_callbacks L) args ev;
  Some (buf, t_lock ++ t_primary ++ t_observers ++ unlock L).

(** ** The public interface as a transition system *)

(** The logger's memory: [L] and the static buffer of [stdout_callback]. *)
Record World := { W_L : LogState; W_buf : list ascii }.

Definition W_init : World :=
  {| W_L := L_init; W_buf := replicate (Z.to_nat LOG_BUFFER_SIZE) nul |}.

Inductive call :=
| CSetLock (fn udata : Z)
| CSetLevel (level : Z)
| CSetQuiet (enable : bool)
| CAddCallback (fn udata level : Z)
| CLog (now : tm) (level : Z) (file : string) (line : Z) (fmt : string) (args : va_list)
| CLevelString (level : Z).

Definition exec_call (c : call) (W : World) : option World :=
  match c with
  | CSetLock fn udata => Some {| W_L := log_set_lock fn udata (W_L W); W_buf := W_buf W |}
  | CSetLevel level => Some {| W_L := log_set_level level (W_L W); W_buf := W_buf W |}
  | CSetQuiet enable => Some {| W_L := log_set_quiet enable (W_L W); W_buf := W_buf W |}
  | CAddCallback fn udata level =>
      '(L, _) ← log_add_callback fn udata level (W_L W);
      Some {| W_L := L; W_buf := W_buf W |}
  | CLog now level file line fmt args =>
      '(buf, _) ← log_log now (W_L W) (W_buf W) level file line fmt args;
      Some {| W_L := W_L W; W_buf := buf |}
  | CLevelString level => _ ← log_level_string level; Some W
  end.

Fixpoint exec_calls (cs : list call) (W : World) : option World :=
  match cs with
  | [] => Some W
  | c :: cs' => W' ← exec_call c W; exec_calls cs' W'
  end.

(** A state the public operations can reach from the initial one. *)
Definition reachable (W : World) : Prop :=
  ∃ cs, exec_calls cs W_init = Some W.

End Logger.

Arguments put_if_room : simpl never.
Arguments put_message : simpl never.
Arguments put_newline : simpl never.
Arguments stdout_callback : simpl never.

(** ** Reading a trace *)

Definition is_hook (a : action) : bool :=
  match a with ALockHook _ _ _ => true | _ => false end.

Definition is_sink (a : action) : bool :=
  match a with ASemihost _ _ _ => true | _ => false end.

Definition is_observer (a : action) : bool :=
  match a with AObserver _ _ _ => true | _ => false end.


(** The observer calls of a trace, in order: function and user data. *)
Definition observer_calls (tr : list action) : list (Z * Z) :=
  omap (λ a, match a with
             | AObserver _ fn ev => Some (fn, ev_udata ev)
             | _ => None
             end) tr.

(** The slots of the table whose function is set, in index order. *)
Definition occupied (cbs : list Callback) : list Callback :=
  filter (λ cb, cb_fn cb ≠ 0) cbs.

(** Density: a set slot has only set slots before it. *)
Definition dense (cbs : list Callback) : Prop :=
  ∀ i j cb, cbs !! i = Some cb → cb_fn cb ≠ 0 → (j < i)%nat →
    ∃ cb', cbs !! j = Some cb' ∧ cb_fn cb' ≠ 0.

(** The registrations of a call sequence that name a function, in order. *)
Definition registrations (cs : list call) : list Callback :=
  omap (λ c, match c with
             | CAddCallback fn udata level =>
                 if fn =? 0 then None
                 else Some {| cb_fn := fn; cb_udata := udata; cb_level := level |}
             | _ => None
             end) cs.

(** ** The text of a line *)

(** The characters of a C string: those before its first terminator. *)
Fixpoint cstr (s : string) : list ascii :=
  match s with
  | EmptyString => []
  | String c s' => if Ascii.eqb c nul then [] else c :: cstr s'
  end.

(** The message [vsnprintf] reports for an event: its expansion, or nothing
    when the call returns a negative value. *)
Definition message_text (vformat : string → va_list → option (list ascii))
    (ev : log_Event) : list ascii :=
  match vformat (ev_fmt ev) (ev_ap ev) with
  | Some s => if Z.of_nat (length s) <=? INT_MAX then s else []
  | None => []
  end.

(** The time field: [strftime] needs nine bytes for it. *)
Definition time_text (C : Z) (t : tm) : list ascii :=
  if 8 <? C then hms t else [].

(** [HH:MM:SS LEVEL file:line: message], before any truncation. *)
Definition line_text (C : Z) (vformat : string → va_list → option (list ascii))
    (ev : log_Event) (t : tm) (lvl : string) : list ascii :=
  time_text C t ++ [" "%char] ++ cstr lvl ++ [" "%char] ++ cstr (ev_file ev)
  ++ [":"%char] ++ decimal (ev_line ev) ++ [":"%char; " "%char]
  ++ message_text vformat ev.

(** The levels a dispatch is written for: whenever the primary sink is
    entered, the level names an entry of [level_strings]. *)
Definition dispatch_defined (L : LogState) (level : Z) : Prop :=
  L_quiet L = false → L_level L <= level → 0 <= level < 6.

(** The capacities the formatter is written for: room for the newline and
    the terminator, and no [int] overflow of [pos]. *)
Definition buffer_ok (C : Z) : Prop := 2 <= C <= INT_MAX - 11.

(** The first [n] bytes of the buffer are the first [n] characters of [t]. *)
Definition agrees (b t : list ascii) (n : nat) : Prop :=
  ∀ i, (i < n)%nat → b !! i = t !! i.

(** The formatter's invariant: [t] is the text produced so far, the buffer
    holds what fits of it below index [C - 1], and [pos] is its length
    until the buffer is full. *)
Definition content_inv (C : Z) (st : list ascii * Z) (t : list ascii) : Prop :=
  Z.of_nat (length st.1) = C ∧ 0 <= st.2 ∧
  (st.2 < C - 1 → Z.of_nat (length t) = st.2) ∧
  (C - 1 <= st.2 → C - 1 <= Z.of_nat (length t)) ∧
  agrees st.1 t (Z.to_nat (Z.min st.2 (C - 1))).

(** ** The dispatch loop, entry by entry *)

(** The entries the loop of [log_log] reaches: those before the first slot
    whose function is unset. *)
Fixpoint visited (cbs : list Callback) : list Callback :=
  match cbs with
  | [] => []
  | cb :: cbs' => if cb_fn cb =? 0 then [] else cb :: visited cbs'
  end.

(** The event an observer receives: the call's arguments opened afresh,
    the entry's user data, and the time of the dispatch. *)
Definition observer_event (now : tm) (args : va_list) (ev : log_Event)
    (cb : Callback) : log_Event :=
  {| ev_ap := args; ev_fmt := ev_fmt ev; ev_file := ev_file ev;
     ev_time := Some (default now (ev_time ev)); ev_udata := cb_udata cb;
     ev_line := ev_line ev; ev_level := ev_level ev |}.

(** The trace of the loop over the entries [occ], the first in slot [i]. *)
Fixpoint visit (i : nat) (now : tm) (args : va_list) (ev : log_Event)
    (occ : list Callback) : list action :=
  match occ with
  | [] => []
  | cb :: occ' =>
      if cb_level cb <=? ev_level ev then
        let ev' := observer_event now args ev cb in
        ARead (FCallback i) :: (init_event now ev (cb_udata cb)).2
        ++ AObserver i (cb_fn cb) ev' :: visit (S i) now args ev' occ'
      else ARead (FCallback i) :: visit (S i) now args ev occ'
  end.

(** The observer calls a dispatch owes to the entries [occ]. *)
Fixpoint observer_events (i : nat) (now : tm) (args : va_list) (ev : log_Event)
    (occ : list Callback) : list action :=
  match occ with
  | [] => []
  | cb :: occ' =>
      (if cb_level cb <=? ev_level ev
       then [AObserver i (cb_fn cb) (observer_event now args ev cb)] else [])
      ++ observer_events (S i) now args ev occ'
  end.

(** The event [log_log] builds from its arguments. *)
Definition call_event (level : Z) (file : string) (line : Z) (fmt : string)
  : log_Event :=
  {| ev_ap := []; ev_fmt := fmt; ev_file := file; ev_time := None;
     ev_udata := 0; ev_line := line; ev_level := level |}.

(** The event the primary sink formats: no user data, the time resolved. *)
Definition sink_event (now : tm) (args : va_list) (ev : log_Event) : log_Event :=
  va_start args (set_time_udata (Some now) 0 ev).

(** The bytes the primary sink hands to the host for an event of level
    name [lvl]: the line cut at [C - 2] characters, and the newline. *)
Definition rendered_line (C : Z) (vformat : string → va_list → option (list ascii))
    (now : tm) (args : va_list) (ev : log_Event) (lvl : string) : list ascii :=
  take (Z.to_nat (C - 2)) (line_text C vformat (sink_event now args ev) now lvl)
  ++ [newline].

(** The trace of lines 188-193. *)
Definition primary_trace (C : Z) (vformat : string → va_list → option (list ascii))
    (now : tm) (L : LogState) (args : va_list) (ev : log_Event) (lvl : string)
  : list action :=
  if L_quiet L then [ARead FQuiet]
  else if L_level L <=? ev_level ev
       then [ARead FQuiet; ARead FLevel; AClock;
             ASemihost SYS_WRITE 1 (rendered_line C vformat now args ev lvl)]
       else [ARead FQuiet; ARead FLevel].

(** The last test of the loop when it stops at an unset slot. *)
Definition closing_read (cbs : list Callback) : list action :=
  if decide (length (visited cbs) < length cbs)%nat
  then [ARead (FCallback (length (visited cbs)))] else [].

(** The table holds the entries [occ] in its first slots, and unset
    slots after them. *)
Definition packed (cbs occ : list Callback) : Prop :=
  ∃ free, cbs = occ ++ free ∧ Forall (λ cb, cb_fn cb ≠ 0) occ ∧
          Forall (λ cb, cb_fn cb = 0) free ∧ length cbs = MAX_CALLBACKS.

(** ** A concrete logger, for the examples *)

(** A printf that knows "%d", "%s" and "%%". *)
Fixpoint printf_subset (fmt : string) (args : va_list) : option (list ascii) :=
  match fmt with
  | EmptyString => Some []
  | String c fmt' =>
      if Ascii.eqb c "%" then
        match fmt' with
        | EmptyString => None
        | String d fmt'' =>
            if Ascii.eqb d "d" then
              match args with
              | VInt z :: args' =>
                  s ← printf_subset fmt'' args'; Some (decimal z ++ s)
              | _ => None
              end
            else if Ascii.eqb d "s" then
              match args with
              | VStr x :: args' =>
                  s ← printf_subset fmt'' args'; Some (cstr x ++ s)
              | _ => None
              end
            else if Ascii.eqb d "%" then
              s ← printf_subset fmt'' args; Some ("%"%char :: s)
            else None
        end
      else s ← printf_subset fmt' args; Some (c :: s)
  end.

Definition demo_now : tm := {| tm_sec := 56; tm_min := 34; tm_hour := 12 |}.

Definition demo_buf (C : nat) : list ascii := replicate C nul.

(** Two observers, for WARN and for ERROR, behind a lock hook. *)
Definition demo_calls : list call :=
  [CSetLock 700 7; CAddCallback 100 1 3; CAddCallback 200 2 4].

Definition demo_L : LogState :=
  {| L_udata := 7; L_lock := 700; L_level := 0; L_quiet := false;
     L_callbacks :=
       [{| cb_fn := 100; cb_udata := 1; cb_level := 3 |};
        {| cb_fn := 200; cb_udata := 2; cb_level := 4 |}]
       ++ replicate 30 no_callback |}.

(** A table with every slot set. *)
Definition full_L : LogState :=
  {| L_udata := 0; L_lock := 0; L_level := 0; L_quiet := false;
     L_callbacks := replicate 32 {| cb_fn := 900; cb_udata := 9; cb_level := 0 |} |}.

Definition demo_W : World := {| W_L := demo_L; W_buf := demo_buf 64 |}.

(** [log_info("y=%d", 7)] at main.c:11. *)
Definition demo_event : log_Event :=
  {| ev_ap := [VInt 7]; ev_fmt := "y=%d"; ev_file := "main.c";
     ev_time := Some demo_now; ev_udata := 0; ev_line := 11; ev_level := 2 |}.

(** The second space-separated field of a line. *)
Fixpoint upto_space (l : list ascii) : list ascii :=
  match l with
  | [] => []
  | c :: l' => if Ascii.eqb c " " then [] else c :: upto_space l'
  end.

Fixpoint after_space (l : list ascii) : list ascii :=
  match l with
  | [] => []
  | c :: l' => if Ascii.eqb c " " then l' else after_space l'
  end.

Definition level_field (line : list ascii) : list ascii :=
  upto_space (after_space line).

(** An upper-case letter of ASCII. *)
Definition is_upper (c : ascii) : bool :=
  (65 <=? nat_of_ascii c)%nat && (nat_of_ascii c <=? 90)%nat.

(** ** Further vocabulary *)

Definition is_clock (a : action) : bool :=
  match a with AClock => true | _ => false end.

(** Some consumer runs: the primary sink, or an entry the loop reaches whose
    minimum level the event has. *)
Definition some_consumer (L : LogState) (level : Z) : bool :=
  (negb (L_quiet L) && (L_level L <=? level))
  || existsb (λ cb, cb_level cb <=? level) (visited (L_callbacks L)).

(** The line up to the message: [HH:MM:SS LEVEL file:line: ]. *)
Definition header_text (C : Z) (ev : log_Event) (t : tm) (lvl : string)
  : list ascii :=
  time_text C t ++ [" "%char] ++ cstr lvl ++ [" "%char] ++ cstr (ev_file ev)
  ++ [":"%char] ++ decimal (ev_line ev) ++ [":"%char; " "%char].

(** A call whose level, when it has one, names an entry of
    [level_strings]. *)
Definition level_in_table (c : call) : Prop :=
  match c with
  | CLog _ level _ _ _ _ | CLevelString level => 0 <= level < 6
  | _ => True
  end.

(** The threshold and the quiet flag a run leaves: those of its last
    [log_set_level] and [log_set_quiet], else the ones it started with. *)
Definition last_level (cs : list call) (level : Z) : Z :=
  foldl (λ l c, match c with CSetLevel l' => l' | _ => l end) level cs.

Definition last_quiet (cs : list call) (quiet : bool) : bool :=
  foldl (λ q c, match c with CSetQuiet q' => q' | _ => q end) quiet cs.

(** * Properties *)

(** ** Integers and stores *)

Lemma bind_Some {A B} (x : A) (f : A → option B) : Some x ≫= f = f x.
Proof. reflexivity. Qed.

Lemma to_size_t_small z : 0 <= z < 2 ^ 32 → to_size_t z = z.
Proof. intros. unfold to_size_t. apply Z.mod_small. lia. Qed.

Lemma to_int_small z : - 2 ^ 31 <= z < 2 ^ 31 → to_int z = z.
Proof. intros. unfold to_int. rewrite Z.mod_small; lia. Qed.

Lemma store_inside b i c :
  0 <= i < Z.of_nat (length b) → store b i c = Some (<[Z.to_nat i := c]> b).
Proof.
  intros Hi. unfold store.
  assert ((0 <=? i) && (i <? Z.of_nat (length b)) = true) as ->; [|done].
  apply andb_true_intro. split; [apply Z.leb_le | apply Z.ltb_lt]; lia.
Qed.

Lemma store_outside b i c :
  ¬ (0 <= i < Z.of_nat (length b)) → store b i c = None.
Proof.
  intros Hi. unfold store.
  destruct (0 <=? i) eqn:H0; [|done].
  destruct (i <? Z.of_nat (length b)) eqn:H1; [|done].
  apply Z.leb_le in H0. apply Z.ltb_lt in H1. lia.
Qed.

Lemma store_bytes_inside l : ∀ b (o : nat),
  (o + length l ≤ length b)%nat →
  ∃ b', store_bytes b (Z.of_nat o) l = Some b' ∧ length b' = length b ∧
        ∀ i, b' !! i = if decide (o ≤ i < o + length l)%nat
                       then l !! (i - o)%nat else b !! i.
Proof.
  induction l as [|c l IH]; intros b o Hlen; simpl in *.
  - exists b. repeat split; [done..|]. intros i. case_decide; [lia|done].
  - rewrite store_inside by lia. rewrite Nat2Z.id. simpl.
    replace (Z.of_nat o + 1) with (Z.of_nat (S o)) by lia.
    destruct (IH (<[o := c]> b) (S o)) as (b' & Hb' & Hl & Hlook).
    { rewrite length_insert. lia. }
    exists b'. split; [done|]. split; [by rewrite Hl, length_insert|].
    intros i. rewrite Hlook.
    destruct (decide (i = o)) as [->|Hne].
    + rewrite decide_False by lia. rewrite decide_True by lia.
      rewrite list_lookup_insert_eq by lia. by rewrite Nat.sub_diag.
    + rewrite list_lookup_insert_ne by done.
      case_decide; case_decide; try lia; [|done].
      by replace (i - o)%nat with (S (i - S o)) by lia.
Qed.

(** ** The C library's texts *)

Lemma length_hms t : length (hms t) = 8%nat.
Proof. done. Qed.

Lemma length_udigits fuel : ∀ n acc,
  (length acc < length (udigits (S fuel) n acc) ≤ S fuel + length acc)%nat.
Proof.
  induction fuel as [|fuel IH]; intros n acc.
  - simpl. destruct (n / 10 =? 0); simpl; lia.
  - change (udigits (S (S fuel)) n acc)
      with (if n / 10 =? 0 then digit (n mod 10) :: acc
            else udigits (S fuel) (n / 10) (digit (n mod 10) :: acc)).
    destruct (n / 10 =? 0); simpl; [lia|].
    specialize (IH (n / 10) (digit (n mod 10) :: acc)). simpl in IH. lia.
Qed.

Lemma length_decimal v : (1 ≤ length (decimal v) ≤ 11)%nat.
Proof.
  unfold decimal. destruct (v <? 0); simpl length.
  - pose proof (length_udigits 9 (- v) []). simpl length in *. lia.
  - pose proof (length_udigits 9 v []). simpl length in *. lia.
Qed.

Lemma log_level_string_Some level :
  0 <= level < 6 ↔ ∃ s, log_level_string level = Some s.
Proof.
  unfold log_level_string. split.
  - intros [H0 H6]. apply Z.leb_le in H0 as Hb. rewrite Hb.
    apply lookup_lt_is_Some. simpl. lia.
  - intros [s Hs]. destruct (0 <=? level) eqn:Hb; [|done].
    apply Z.leb_le in Hb. apply lookup_lt_Some in Hs. simpl in Hs. lia.
Qed.

(** ** The formatter keeps its invariant *)

Section Formatter.

Variable C : Z.
Variable vformat : string → va_list → option (list ascii).
Hypothesis HC : buffer_ok C.

Lemma content_inv_start buf :
  Z.of_nat (length buf) = C → content_inv C (buf, 0) [].
Proof.
  unfold buffer_ok, INT_MAX in HC. intros Hlen.
  repeat split; simpl; try lia. intros i Hi. lia.
Qed.

(** Once the buffer is full, text that is dropped changes nothing. *)
Lemma content_inv_full b pos t s :
  content_inv C (b, pos) t → C - 1 <= pos → content_inv C (b, pos) (t ++ s).
Proof.
  intros (Hlen & Hpos & Hlt & Hge & Hag) Hfull. simpl in *.
  repeat split; simpl; try lia.
  - rewrite length_app. lia.
  - intros i Hi. rewrite lookup_app_l by lia. by apply Hag.
Qed.

Lemma has_room_inside pos :
  0 <= pos <= INT_MAX → has_room C pos = bool_decide (pos < C - 1).
Proof.
  unfold buffer_ok, INT_MAX in *. intros Hpos. unfold has_room.
  rewrite !to_size_t_small by lia.
  case_bool_decide; [apply Z.ltb_lt | apply Z.ltb_ge]; lia.
Qed.

Lemma put_inv c b pos t :
  content_inv C (b, pos) t → pos < C - 1 →
  ∃ b', put c (b, pos) = Some (b', pos + 1) ∧
        content_inv C (b', pos + 1) (t ++ [c]).
Proof.
  unfold buffer_ok, INT_MAX in HC.
  intros (Hlen & Hpos & Hlt & Hge & Hag) Hroom. simpl in *.
  exists (<[Z.to_nat pos := c]> b). unfold put. simpl. split.
  - rewrite store_inside by lia. simpl. by rewrite to_int_small by lia.
  - repeat split; simpl; try lia.
    + by rewrite length_insert.
    + rewrite length_app. simpl. lia.
    + rewrite length_app. simpl. lia.
    + intros i Hi. destruct (decide (i = Z.to_nat pos)) as [->|Hne].
      * rewrite list_lookup_insert_eq by lia.
        symmetry. apply list_lookup_middle. lia.
      * rewrite list_lookup_insert_ne by done.
        rewrite lookup_app_l by lia. apply Hag. lia.
Qed.

Lemma put_if_room_inv c st t :
  content_inv C st t → st.2 <= INT_MAX →
  ∃ st', put_if_room C c st = Some st' ∧ content_inv C st' (t ++ [c]) ∧
         st'.2 <= Z.max st.2 (C - 1).
Proof.
  destruct st as [b pos]. intros Hinv Hmax. simpl in Hmax.
  unfold put_if_room. simpl.
  rewrite has_room_inside by (destruct Hinv as (_ & ? & _); simpl in *; lia).
  case_bool_decide as Hroom.
  - destruct (put_inv c b pos t Hinv Hroom) as (b' & Hput & Hinv').
    exists (b', pos + 1). split_and!; [done..|simpl; lia].
  - exists (b, pos). simpl. split; [done|]. split; [|lia].
    apply content_inv_full; [done|lia].
Qed.

Lemma copy_cstr_inv s : ∀ st t,
  content_inv C st t → st.2 <= INT_MAX →
  ∃ st', copy_cstr C s st = Some st' ∧ content_inv C st' (t ++ cstr s) ∧
         st'.2 <= Z.max st.2 (C - 1).
Proof.
  unfold buffer_ok, INT_MAX in HC.
  induction s as [|c s IH]; intros [b pos] t Hinv Hmax; simpl in *.
  - exists (b, pos). rewrite app_nil_r. split_and!; [done..|simpl; lia].
  - destruct (Ascii.eqb c nul).
    { exists (b, pos). rewrite app_nil_r. split_and!; [done..|simpl; lia]. }
    rewrite has_room_inside by (destruct Hinv as (_ & ? & _); simpl in *; lia).
    case_bool_decide as Hroom.
    + destruct (put_inv c b pos t Hinv Hroom) as (b' & -> & Hinv'). simpl.
      destruct (IH (b', pos + 1) (t ++ [c]) Hinv') as (st' & Hcopy & Hinv'' & Hle).
      { simpl. unfold INT_MAX. lia. }
      exists st'. rewrite <- app_assoc in Hinv''.
      split_and!; [done..|simpl in *; lia].
    + exists (b, pos). simpl. split; [done|]. split; [|lia].
      apply content_inv_full; [done|lia].
Qed.

(** What [snprintf] and [vsnprintf] leave, for any new position between the
    old one and the end of the full text that is the latter unless the
    buffer is full. *)
Lemma sn_store_inv b pos t s :
  content_inv C (b, pos) t → pos <= C - 1 →
  ∃ b', sn_store b pos (C - pos) s = Some b' ∧
        ∀ pos', pos <= pos' <= pos + Z.of_nat (length s) →
                (pos' < C - 1 → pos' = pos + Z.of_nat (length s)) →
                content_inv C (b', pos') (t ++ s).
Proof.
  unfold buffer_ok, INT_MAX in HC.
  intros (Hlen & Hpos & Hlt & Hge & Hag) Hin. simpl in *.
  unfold sn_store. assert ((C - pos =? 0) = false) as -> by (apply Z.eqb_neq; lia).
  set (w := take (Z.to_nat (C - pos - 1)) s).
  assert (length w = Nat.min (Z.to_nat (C - pos - 1)) (length s)) as Hw
    by apply length_take.
  destruct (store_bytes_inside (w ++ [nul]) b (Z.to_nat pos)) as (b' & Hb' & Hl & Hlook).
  { rewrite length_app. simpl. lia. }
  rewrite Z2Nat.id in Hb' by lia.
  exists b'. split; [done|]. intros pos' Hpos' Hend.
  repeat split; simpl; try lia.
  - rewrite length_app. lia.
  - rewrite length_app. lia.
  - intros i Hi. rewrite Hlook. rewrite length_app. simpl.
    destruct (decide (i < Z.to_nat pos)%nat) as [Hbefore|Hafter].
    + rewrite decide_False by lia. rewrite lookup_app_l by lia.
      apply Hag. lia.
    + rewrite decide_True by lia.
      rewrite lookup_app_l by lia. unfold w. rewrite lookup_take_lt by lia.
      rewrite lookup_app_r by lia. f_equal. lia.
Qed.

Lemma strftime_inv buf t :
  Z.of_nat (length buf) = C →
  ∃ b' n, strftime_HMS buf 0 (to_size_t (C - 0)) t = Some (b', n) ∧
          content_inv C (b', to_int (to_size_t 0 + n)) (time_text C t) ∧
          to_int (to_size_t 0 + n) <= C - 1.
Proof.
  unfold buffer_ok, INT_MAX in HC. intros Hlen.
  rewrite Z.sub_0_r, !to_size_t_small by lia.
  unfold strftime_HMS, time_text. rewrite length_hms.
  change (Z.of_nat 8) with 8. destruct (8 <? C) eqn:Hfit.
  - apply Z.ltb_lt in Hfit.
    destruct (store_bytes_inside (hms t ++ [nul]) buf 0) as (b' & Hb' & Hl & Hlook).
    { rewrite length_app, length_hms. simpl. lia. }
    change (Z.of_nat 0) with 0 in Hb'. rewrite Hb'. simpl.
    exists b', 8. rewrite to_int_small by lia. split; [done|]. split; [|lia].
    repeat split; simpl; rewrite ?length_hms; try lia.
    intros i Hi. rewrite Hlook, length_app, length_hms. cbn [length].
    rewrite decide_True by lia. rewrite Nat.sub_0_r.
    apply lookup_app_l. rewrite length_hms. lia.
  - apply Z.ltb_ge in Hfit.
    destruct (store_bytes_inside (take (Z.to_nat C) (hms t)) buf 0) as (b' & Hb' & Hl & _).
    { rewrite length_take, length_hms. lia. }
    change (Z.of_nat 0) with 0 in Hb'. rewrite Hb'. simpl.
    exists b', 0. rewrite to_int_small by lia. split; [done|]. split; [|lia].
    apply content_inv_start. lia.
Qed.

Lemma snprintf_d_inv b pos t v :
  content_inv C (b, pos) t → pos <= C - 1 →
  ∃ b' n, snprintf_d b pos (to_size_t (C - pos)) v = Some (b', n) ∧
          content_inv C (b', to_int (pos + n)) (t ++ decimal v) ∧
          to_int (pos + n) <= INT_MAX.
Proof.
  unfold buffer_ok, INT_MAX in *. intros Hinv Hin.
  assert (0 <= pos) as Hpos by (by destruct Hinv as (_ & ? & _)).
  rewrite to_size_t_small by lia. unfold snprintf_d.
  destruct (sn_store_inv b pos t (decimal v) Hinv Hin) as (b' & -> & Hnew).
  pose proof (length_decimal v) as Hd. simpl.
  exists b', (Z.of_nat (length (decimal v))).
  rewrite to_int_small by lia. split; [done|]. split; [|lia].
  apply Hnew; lia.
Qed.

Lemma put_message_inv ev b pos t :
  content_inv C (b, pos) t → pos <= INT_MAX →
  ∃ st', put_message C vformat ev (b, pos) = Some st' ∧
         content_inv C st' (t ++ message_text vformat ev) ∧ st'.2 <= INT_MAX.
Proof.
  unfold buffer_ok, INT_MAX in *. intros Hinv Hmax.
  assert (0 <= pos) as Hpos by (by destruct Hinv as (_ & ? & _)).
  unfold put_message, message_text. rewrite to_size_t_small by lia.
  destruct (pos <? C) eqn:Hin.
  2: { apply Z.ltb_ge in Hin. exists (b, pos). split; [done|].
       split; [|simpl; lia]. apply content_inv_full; [done|lia]. }
  apply Z.ltb_lt in Hin.
  rewrite (to_size_t_small (C - pos)) by lia.
  rewrite (to_int_small (C - pos)) by lia.
  rewrite (to_size_t_small (C - pos)) by lia.
  unfold vsnprintf.
  destruct (vformat (ev_fmt ev) (ev_ap ev)) as [s|].
  2: { exists (b, pos). simpl. rewrite app_nil_r. split_and!; [done..|lia]. }
  unfold INT_MAX. destruct (Z.of_nat (length s) <=? 2 ^ 31 - 1) eqn:Hs.
  2: { exists (b, pos). simpl. rewrite app_nil_r. split_and!; [done..|lia]. }
  apply Z.leb_le in Hs.
  destruct (sn_store_inv b pos t s Hinv) as (b' & -> & Hnew); [lia|]. simpl.
  assert ((0 <=? Z.of_nat (length s)) = true) as -> by (apply Z.leb_le; lia).
  eexists. split; [done|]. simpl.
  destruct (Z.of_nat (length s) <? C - pos) eqn:Hfit.
  - apply Z.ltb_lt in Hfit. rewrite to_int_small by lia.
    split; [apply Hnew|]; lia.
  - apply Z.ltb_ge in Hfit. rewrite to_int_small by lia.
    split; [apply Hnew|]; lia.
Qed.

(** The newline lands inside the buffer, and what is handed to the host is
    the text cut at [C - 2] characters, then the newline. *)
Lemma put_newline_spec b pos t :
  content_inv C (b, pos) t → pos <= INT_MAX →
  ∃ b' pos', put_newline C (b, pos) = Some (b', pos') ∧
             Z.of_nat (length b') = C ∧ 1 <= pos' <= C - 1 ∧
             take (Z.to_nat pos') b' = take (Z.to_nat (C - 2)) t ++ [newline].
Proof.
  unfold buffer_ok, INT_MAX in *.
  intros (Hlen & Hpos & Hlt & Hge & Hag) Hmax. simpl in *.
  unfold put_newline. rewrite !to_size_t_small by lia.
  set (p := if C - 1 <=? pos then to_int (C - 2) else pos).
  assert (0 <= p <= C - 2 ∧ (pos < C - 1 → p = pos) ∧ (C - 1 <= pos → p = C - 2))
    as (Hp & Hp1 & Hp2).
  { unfold p. destruct (C - 1 <=? pos) eqn:Hfull.
    - apply Z.leb_le in Hfull. rewrite to_int_small by lia. lia.
    - apply Z.leb_gt in Hfull. lia. }
  clearbody p. unfold put. simpl.
  rewrite store_inside by lia. simpl. rewrite to_int_small by lia.
  eexists _, _. split; [done|]. rewrite length_insert.
  split; [done|]. split; [lia|].
  apply list_eq. intros i.
  assert (length (take (Z.to_nat (C - 2)) t) = Z.to_nat p) as Ht.
  { rewrite length_take. lia. }
  destruct (decide (i < Z.to_nat p)%nat) as [Hlow|Hhigh].
  - rewrite lookup_take_lt by lia. rewrite list_lookup_insert_ne by lia.
    rewrite lookup_app_l by lia. rewrite lookup_take_lt by lia.
    apply Hag. lia.
  - destruct (decide (i = Z.to_nat p)) as [->|Hne].
    + rewrite lookup_take_lt by lia. rewrite list_lookup_insert_eq by lia.
      symmetry. by apply list_lookup_middle.
    + rewrite lookup_take_ge by lia. symmetry.
      apply lookup_ge_None_2. rewrite length_app. simpl. lia.
Qed.

(** [stdout_callback] is defined on every event with a time and a level of
    the table; what it hands to the host is the line cut at [C - 2]
    characters and the newline, read from the start of the buffer. *)
Lemma stdout_callback_spec buf ev t lvl :
  Z.of_nat (length buf) = C →
  ev_time ev = Some t →
  log_level_string (ev_level ev) = Some lvl →
  ∃ buf' pos,
    stdout_callback C vformat buf ev
      = Some (buf', ASemihost SYS_WRITE 1
                      (take (Z.to_nat (C - 2)) (line_text C vformat ev t lvl)
                       ++ [newline])) ∧
    Z.of_nat (length buf') = C ∧ 1 <= pos <= C - 1 ∧
    take (Z.to_nat pos) buf'
    = take (Z.to_nat (C - 2)) (line_text C vformat ev t lvl) ++ [newline].
Proof.
  intros Hlen Ht Hlvl. unfold stdout_callback. rewrite Ht, Hlvl. simpl.
  assert (C - 1 <= INT_MAX) as Hcap by (unfold buffer_ok in HC; lia).
  destruct (strftime_inv buf t Hlen) as (b1 & n1 & -> & I1 & B1). simpl.
  destruct (put_if_room_inv " "%char _ _ I1) as (st2 & -> & I2 & B2); [simpl; lia|].
  simpl in B2 |- *.
  destruct (copy_cstr_inv lvl _ _ I2) as (st3 & -> & I3 & B3); [lia|]. simpl.
  destruct (put_if_room_inv " "%char _ _ I3) as (st4 & -> & I4 & B4); [lia|]. simpl.
  destruct (copy_cstr_inv (ev_file ev) _ _ I4) as (st5 & -> & I5 & B5); [lia|]. simpl.
  destruct (put_if_room_inv ":"%char _ _ I5) as ([b6 p6] & -> & I6 & B6); [lia|].
  simpl in B6 |- *.
  destruct (snprintf_d_inv b6 p6 _ (ev_line ev) I6) as (b7 & n7 & -> & I7 & B7); [lia|].
  simpl.
  destruct (put_if_room_inv ":"%char _ _ I7) as (st8 & -> & I8 & B8); [done|].
  simpl in B8 |- *.
  destruct (put_if_room_inv " "%char _ _ I8) as ([b9 p9] & -> & I9 & B9); [lia|].
  simpl in B9 |- *.
  destruct (put_message_inv ev b9 p9 _ I9) as ([b10 p10] & -> & I10 & B10); [lia|].
  simpl in B10 |- *.
  destruct (put_newline_spec b10 p10 _ I10 B10) as (b11 & p11 & -> & L11 & B11 & O11).
  simpl. unfold semihosting_write.
  assert ((0 <=? p11) && (p11 <=? Z.of_nat (length b11)) = true) as ->.
  { apply andb_true_intro. split; apply Z.leb_le; lia. }
  simpl. exists b11, p11.
  assert (take (Z.to_nat p11) b11
          = take (Z.to_nat (C - 2)) (line_text C vformat ev t lvl) ++ [newline])
    as Hout.
  { rewrite O11. do 2 f_equal. unfold line_text. by rewrite <- !app_assoc. }
  by rewrite Hout.
Qed.

(** Conversely, it is defined only on such events. *)
Lemma stdout_callback_inv buf ev r :
  Z.of_nat (length buf) = C →
  stdout_callback C vformat buf ev = Some r →
  ∃ t lvl, ev_time ev = Some t ∧ log_level_string (ev_level ev) = Some lvl.
Proof.
  intros Hlen Hsome. unfold stdout_callback in Hsome.
  destruct (ev_time ev) as [t|]; [|done]. rewrite bind_Some in Hsome.
  destruct (log_level_string (ev_level ev)) as [lvl|]; [by eauto|]. exfalso.
  assert (C - 1 <= INT_MAX) as Hcap by (unfold buffer_ok in HC; lia).
  destruct (strftime_inv buf t Hlen) as (b1 & n1 & E1 & I1 & B1).
  rewrite E1, bind_Some in Hsome. cbv beta iota in Hsome.
  destruct (put_if_room_inv " "%char _ _ I1) as (st2 & E2 & _); [simpl; lia|].
  by rewrite E2, bind_Some in Hsome.
Qed.

End Formatter.

(** ** The registry *)

Lemma visited_split cbs :
  ∃ rest, cbs = visited cbs ++ rest ∧
          Forall (λ cb, cb_fn cb ≠ 0) (visited cbs) ∧
          (rest = [] ∨ ∃ c post, rest = c :: post ∧ cb_fn c = 0).
Proof.
  induction cbs as [|cb cbs (rest & Heq & Hnz & Hrest)]; simpl.
  - exists []. split_and!; [done|constructor|by left].
  - destruct (cb_fn cb =? 0) eqn:Hfn.
    + apply Z.eqb_eq in Hfn. exists (cb :: cbs).
      split_and!; [done|constructor|right; eauto].
    + apply Z.eqb_neq in Hfn. exists rest.
      split_and!; [simpl; congruence|by constructor|done].
Qed.

Lemma visited_all cbs :
  Forall (λ cb, cb_fn cb ≠ 0) cbs → visited cbs = cbs.
Proof.
  induction 1 as [|cb cbs Hcb _ IH]; simpl; [done|].
  apply Z.eqb_neq in Hcb. by rewrite Hcb, IH.
Qed.

Lemma visited_app_free occ c post :
  Forall (λ cb, cb_fn cb ≠ 0) occ → cb_fn c = 0 →
  visited (occ ++ c :: post) = occ.
Proof.
  intros Hocc Hc. induction Hocc as [|cb occ Hcb _ IH]; simpl.
  - apply Z.eqb_eq in Hc. by rewrite Hc.
  - apply Z.eqb_neq in Hcb. by rewrite Hcb, IH.
Qed.

(** The registration loop stops at the first unset slot and fills it. *)
Lemma add_callback_from_free n : ∀ i new pre c post,
  Forall (λ cb, cb_fn cb ≠ 0) pre → cb_fn c = 0 →
  (i ≤ length pre)%nat → (i + n)%nat = length (pre ++ c :: post) →
  add_callback_from n i new (pre ++ c :: post) = Some (pre ++ new :: post, 0).
Proof.
  induction n as [|n IH]; intros i new pre c post Hpre Hc Hi Hn;
    rewrite length_app in Hn; simpl in Hn; [lia|]. simpl.
  destruct (decide (i = length pre)) as [->|Hne].
  - rewrite list_lookup_middle by done. simpl.
    apply Z.eqb_eq in Hc. rewrite Hc.
    rewrite insert_app_r_alt by lia. by rewrite Nat.sub_diag.
  - destruct (lookup_lt_is_Some_2 pre i) as [cb Hcb]; [lia|].
    rewrite lookup_app_l by lia. rewrite Hcb. simpl.
    pose proof (proj1 (Forall_lookup _ _) Hpre i cb Hcb) as Hnz. simpl in Hnz.
    apply Z.eqb_neq in Hnz. rewrite Hnz.
    apply IH; [done..|lia|rewrite length_app; simpl; lia].
Qed.

(** With every slot set it runs to the end and changes nothing. *)
Lemma add_callback_from_full n : ∀ i new cbs,
  Forall (λ cb, cb_fn cb ≠ 0) cbs → (i + n)%nat = length cbs →
  add_callback_from n i new cbs = Some (cbs, -1).
Proof.
  induction n as [|n IH]; intros i new cbs Hall Hn; simpl; [done|].
  destruct (lookup_lt_is_Some_2 cbs i) as [cb Hcb]; [lia|].
  rewrite Hcb. simpl.
  pose proof (proj1 (Forall_lookup _ _) Hall i cb Hcb) as Hnz. simpl in Hnz.
  apply Z.eqb_neq in Hnz. rewrite Hnz. apply IH; [done|lia].
Qed.

Lemma set_callbacks_same L : set_callbacks (L_callbacks L) L = L.
Proof. by destruct L. Qed.

(** ** The dispatch loop *)

Lemma va_start_init_event now args ev cb :
  va_start args (init_event now ev (cb_udata cb)).1 = observer_event now args ev cb.
Proof. unfold init_event, observer_event. by destruct (ev_time ev). Qed.

Lemma observer_event_twice now args ev cb cb' :
  observer_event now args (observer_event now args ev cb) cb'
  = observer_event now args ev cb'.
Proof. unfold observer_event. simpl. by destruct (ev_time ev). Qed.

Lemma observer_event_sink now args ev cb :
  ev_time ev = None →
  observer_event now args (sink_event now args ev) cb = observer_event now args ev cb.
Proof. unfold observer_event, sink_event. simpl. by intros ->. Qed.

(** The loop of [log_log] is the walk over the entries before the first
    unset slot, closed by the test that finds that slot. *)
Lemma observers_from_visit now args rest : ∀ pre i n ev,
  length pre = i → length rest = n →
  observers_from n i now (pre ++ rest) args ev
  = Some (visit i now args ev (visited rest)
          ++ (if decide (length (visited rest) < length rest)%nat
              then [ARead (FCallback (i + length (visited rest)))] else [])).
Proof.
  induction rest as [|cb rest IH]; intros pre i n ev Hi Hn; subst n; simpl.
  - done.
  - rewrite list_lookup_middle by done. simpl.
    destruct (cb_fn cb =? 0) eqn:Hfn; simpl.
    { by rewrite Nat.add_0_r. }
    assert (pre ++ cb :: rest = (pre ++ [cb]) ++ rest) as Happ
      by (by rewrite <- app_assoc).
    assert (length (pre ++ [cb]) = S i) as Hpre
      by (rewrite length_app; simpl; lia).
    destruct (cb_level cb <=? ev_level ev).
    + rewrite <- (va_start_init_event now args ev cb).
      destruct (init_event now ev (cb_udata cb)) as [ev' t_init]. simpl.
      rewrite Happ, (IH _ (S i) _ _ Hpre eq_refl). simpl.
      rewrite Nat.add_succ_r, <- !app_assoc. simpl.
      repeat case_decide; try lia; done.
    + rewrite Happ, (IH _ (S i) _ _ Hpre eq_refl). simpl.
      rewrite Nat.add_succ_r. repeat case_decide; try lia; done.
Qed.

Lemma observer_events_level i now args ev ev' occ :
  ev_level ev' = ev_level ev →
  (∀ cb, observer_event now args ev' cb = observer_event now args ev cb) →
  observer_events i now args ev' occ = observer_events i now args ev occ.
Proof.
  intros Hl He. revert i. induction occ as [|cb occ IH]; intros i; simpl; [done|].
  by rewrite Hl, He, IH.
Qed.

Lemma init_event_quiet now ev udata (P : action → Prop) `{!∀ a, Decision (P a)} :
  ¬ P AClock → filter P (init_event now ev udata).2 = [].
Proof.
  intros HP. unfold init_event. destruct (ev_time ev); simpl; [done|].
  by rewrite filter_cons_False.
Qed.

(** Among the actions of the walk, the observer calls are those owed to the
    entries whose level the event reaches, in slot order. *)
Lemma visit_observers now args occ : ∀ i ev,
  filter is_observer (visit i now args ev occ) = observer_events i now args ev occ.
Proof.
  induction occ as [|cb occ IH]; intros i ev; simpl; [done|].
  destruct (cb_level cb <=? ev_level ev); simpl.
  - rewrite filter_cons_False by (simpl; tauto).
    rewrite filter_app, init_event_quiet by (simpl; tauto). simpl.
    rewrite filter_cons_True by done. f_equal. rewrite IH.
    apply observer_events_level; [done|]. intros. apply observer_event_twice.
  - rewrite filter_cons_False by (simpl; tauto). apply IH.
Qed.

(** The walk calls neither the host nor the lock hook. *)
Lemma visit_only_observers now args occ (P : action → Prop) `{!∀ a, Decision (P a)} :
  (∀ i, ¬ P (ARead (FCallback i))) → ¬ P AClock → (∀ i f e, ¬ P (AObserver i f e)) →
  ∀ i ev, filter P (visit i now args ev occ) = [].
Proof.
  intros Hread Hclock Hobs.
  induction occ as [|cb occ IH]; intros i ev; simpl; [done|].
  destruct (cb_level cb <=? ev_level ev); simpl.
  - rewrite filter_cons_False by apply Hread.
    rewrite filter_app, init_event_quiet by done. simpl.
    rewrite filter_cons_False by apply Hobs. apply IH.
  - rewrite filter_cons_False by apply Hread. apply IH.
Qed.


(** ** One dispatch *)

Section Dispatch.

Variable C : Z.
Variable vformat : string → va_list → option (list ascii).
Hypothesis HC : buffer_ok C.

Lemma primary_sink_spec now L buf args ev lvl :
  Z.of_nat (length buf) = C → ev_time ev = None →
  log_level_string (ev_level ev) = Some lvl →
  ∃ ev1 buf',
    primary_sink C vformat now L buf args ev
      = Some (ev1, buf', primary_trace C vformat now L args ev lvl) ∧
    Z.of_nat (length buf') = C ∧ ev_level ev1 = ev_level ev ∧
    ∀ cb, observer_event now args ev1 cb = observer_event now args ev cb.
Proof.
  intros Hlen Ht Hlvl. unfold primary_sink, primary_trace.
  destruct (L_quiet L); [by exists ev, buf|].
  destruct (L_level L <=? ev_level ev); [|by exists ev, buf].
  unfold init_event. rewrite Ht.
  destruct (stdout_callback_spec C vformat HC buf (sink_event now args ev) now lvl)
    as (buf' & pos & Hcall & Hlen' & _); [done..|].
  change (va_start args (set_time_udata (Some now) 0 ev))
    with (sink_event now args ev).
  rewrite Hcall. simpl. exists (sink_event now args ev), buf'.
  split_and!; [done..|]. intros cb. by apply observer_event_sink.
Qed.

Lemma observers_from_all now args cbs ev :
  length cbs = MAX_CALLBACKS →
  observers_from MAX_CALLBACKS 0 now cbs args ev
  = Some (visit 0 now args ev (visited cbs) ++ closing_read cbs).
Proof.
  intros Hlen.
  exact (observers_from_visit now args cbs [] 0 MAX_CALLBACKS ev eq_refl Hlen).
Qed.

(** The trace of a dispatch, part by part. *)
Lemma log_log_spec now L buf level file line fmt args lvl :
  Z.of_nat (length buf) = C →
  length (L_callbacks L) = MAX_CALLBACKS →
  log_level_string level = Some lvl →
  ∃ buf' ev1,
    log_log C vformat now L buf level file line fmt args
      = Some (buf',
              lock L
              ++ primary_trace C vformat now L args
                   (call_event level file line fmt) lvl
              ++ (visit 0 now args ev1 (visited (L_callbacks L))
                  ++ closing_read (L_callbacks L))
              ++ unlock L) ∧
    Z.of_nat (length buf') = C ∧ ev_level ev1 = level ∧
    ∀ cb, observer_event now args ev1 cb
          = observer_event now args (call_event level file line fmt) cb.
Proof.
  intros Hlen Htab Hlvl.
  destruct (primary_sink_spec now L buf args (call_event level file line fmt) lvl)
    as (ev1 & buf' & Hsink & Hlen' & Hl1 & He1); [done..|].
  exists buf', ev1. split_and!; [|done..].
  unfold log_log. fold (call_event level file line fmt).
  rewrite Hsink, bind_Some.
  rewrite observers_from_all by done. by rewrite bind_Some.
Qed.

(** With the quiet flag set or the level under the threshold, the formatter
    is not entered: the dispatch is defined at every level and leaves the
    buffer alone. *)
Lemma log_log_skipping now L buf level file line fmt args :
  length (L_callbacks L) = MAX_CALLBACKS →
  ¬ (L_quiet L = false ∧ L_level L <= level) →
  log_log C vformat now L buf level file line fmt args
  = Some (buf,
          lock L
          ++ (if L_quiet L then [ARead FQuiet] else [ARead FQuiet; ARead FLevel])
          ++ (visit 0 now args (call_event level file line fmt)
                (visited (L_callbacks L))
              ++ closing_read (L_callbacks L))
          ++ unlock L).
Proof.
  intros Htab Hskip. unfold log_log. fold (call_event level file line fmt).
  assert (primary_sink C vformat now L buf args (call_event level file line fmt)
          = Some (call_event level file line fmt, buf,
                  if L_quiet L then [ARead FQuiet]
                  else [ARead FQuiet; ARead FLevel])) as ->.
  { unfold primary_sink. destruct (L_quiet L); [done|].
    cbn [ev_level call_event].
    destruct (Z.leb_spec (L_level L) level); [|done]. by destruct Hskip. }
  rewrite bind_Some. rewrite observers_from_all by done. by rewrite bind_Some.
Qed.

(** A level outside the table that reaches the sink has no defined
    behaviour: [level_strings] is read out of bounds. *)
Lemma log_log_unknown_level now L buf level file line fmt args :
  Z.of_nat (length buf) = C →
  L_quiet L = false → L_level L <= level → ¬ (0 <= level < 6) →
  log_log C vformat now L buf level file line fmt args = None.
Proof.
  intros Hlen Hquiet Hreach Hlevel. unfold log_log.
  fold (call_event level file line fmt).
  assert (primary_sink C vformat now L buf args (call_event level file line fmt)
          = None) as ->; [|done].
  unfold primary_sink. rewrite Hquiet. cbn [ev_level call_event].
  assert ((L_level L <=? level) = true) as -> by (by apply Z.leb_le).
  unfold init_event. cbn [ev_time call_event].
  destruct (stdout_callback C vformat buf _) as [r|] eqn:Hcall; [|done].
  destruct (stdout_callback_inv C vformat HC _ _ _ Hlen Hcall)
    as (t & lvl & _ & Hlvl).
  destruct Hlevel. apply log_level_string_Some. eauto.
Qed.

(** Every defined dispatch: the lock, the primary sink's part, the walk
    over the table, the unlock. *)
Lemma log_log_shape now L buf level file line fmt args :
  Z.of_nat (length buf) = C →
  length (L_callbacks L) = MAX_CALLBACKS →
  dispatch_defined L level →
  ∃ buf' sink_part ev1,
    log_log C vformat now L buf level file line fmt args
      = Some (buf',
              lock L ++ sink_part
              ++ (visit 0 now args ev1 (visited (L_callbacks L))
                  ++ closing_read (L_callbacks L))
              ++ unlock L) ∧
    Z.of_nat (length buf') = C ∧
    filter is_hook sink_part = [] ∧ filter is_observer sink_part = [] ∧
    ev_level ev1 = level ∧
    ∀ cb, observer_event now args ev1 cb
          = observer_event now args (call_event level file line fmt) cb.
Proof.
  intros Hlen Htab Hdef.
  destruct (decide (L_quiet L = false ∧ L_level L <= level)) as [[Hq Hr]|Hskip].
  - destruct (proj1 (log_level_string_Some level) (Hdef Hq Hr)) as [lvl Hlvl].
    destruct (log_log_spec now L buf level file line fmt args lvl)
      as (buf' & ev1 & Hlog & Hlen' & Hl1 & He1); [done..|].
    eexists buf', _, ev1. split; [exact Hlog|].
    split_and!; [done| | |done..].
    + unfold primary_trace. destruct (L_quiet L); [done|].
      by destruct (L_level L <=? _).
    + unfold primary_trace. destruct (L_quiet L); [done|].
      by destruct (L_level L <=? _).
  - eexists buf, _, (call_event level file line fmt).
    split; [by apply log_log_skipping|].
    split_and!; [done| | |done..]; by destruct (L_quiet L).
Qed.

(** The static buffer keeps its size. *)
Lemma log_log_buf_length now L buf level file line fmt args buf' tr :
  Z.of_nat (length buf) = C →
  log_log C vformat now L buf level file line fmt args = Some (buf', tr) →
  Z.of_nat (length buf') = C.
Proof.
  intros Hlen. unfold log_log.
  destruct (primary_sink _ _ _ _ _ _ _) as [[[ev1 b1] t1]|] eqn:Hsink; [|done].
  rewrite bind_Some.
  destruct (observers_from _ _ _ _ _ _) as [t_obs|]; [|done].
  rewrite bind_Some. intros [= <- _].
  unfold primary_sink in Hsink.
  destruct (L_quiet L); [by injection Hsink as _ <- _|].
  destruct (L_level L <=? _); [|by injection Hsink as _ <- _].
  destruct (init_event _ _ _) as [ev' t_init].
  destruct (stdout_callback C vformat buf (va_start args ev')) as [[b a]|] eqn:Hcall;
    [|done].
  rewrite bind_Some in Hsink. injection Hsink as _ <- _.
  destruct (stdout_callback_inv C vformat HC _ _ _ Hlen Hcall) as (t & lvl & Ht & Hl).
  destruct (stdout_callback_spec C vformat HC buf _ t lvl Hlen Ht Hl)
    as (b' & pos & Hcall' & Hlen' & _).
  rewrite Hcall in Hcall'. by injection Hcall' as -> _.
Qed.

Lemma exec_calls_buf_length cs : ∀ W W',
  Z.of_nat (length (W_buf W)) = C →
  exec_calls C vformat cs W = Some W' →
  Z.of_nat (length (W_buf W')) = C.
Proof.
  induction cs as [|c cs IH]; intros W W' Hlen Hrun; simpl in Hrun.
  - by injection Hrun as <-.
  - destruct (exec_call C vformat c W) as [W1|] eqn:Hstep; [|done].
    rewrite bind_Some in Hrun. apply (IH W1 W'); [|done].
    destruct c; simpl in Hstep.
    1-3: by injection Hstep as <-.
    + destruct (log_add_callback _ _ _ _) as [[L r]|]; [|done].
      by injection Hstep as <-.
    + destruct (log_log _ _ _ _ _ _ _ _ _ _) as [[buf tr]|] eqn:Hlog; [|done].
      injection Hstep as <-. simpl. by eapply log_log_buf_length.
    + destruct (log_level_string level); [|done]. by injection Hstep as <-.
Qed.

Lemma W_init_buf_length : Z.of_nat (length (W_buf (W_init C))) = C.
Proof.
  unfold buffer_ok in HC. simpl. rewrite length_replicate. lia.
Qed.

End Dispatch.

(** ** What a trace holds *)

(** Closes the side conditions of the lemmas below: the action at hand is
    not of the kind the filter keeps. *)
Ltac silent := intros; simpl; tauto.

Lemma lock_hook_silent L acquire (P : action → Prop) `{!∀ a, Decision (P a)} :
  (∀ f, ¬ P (ARead f)) → (∀ fn acq u, ¬ P (ALockHook fn acq u)) →
  filter P (call_lock_hook L acquire) = [].
Proof.
  intros Hread Hhook. unfold call_lock_hook.
  rewrite filter_cons_False by apply Hread.
  destruct (L_lock L =? 0); [done|].
  rewrite filter_cons_False by apply Hread.
  by rewrite filter_cons_False by apply Hhook.
Qed.

Lemma closing_read_silent cbs (P : action → Prop) `{!∀ a, Decision (P a)} :
  (∀ f, ¬ P (ARead f)) → filter P (closing_read cbs) = [].
Proof.
  intros Hread. unfold closing_read. case_decide; [|done].
  by rewrite filter_cons_False by apply Hread.
Qed.

Lemma primary_trace_sink C vformat now L args ev lvl :
  filter is_sink (primary_trace C vformat now L args ev lvl)
  = if negb (L_quiet L) && (L_level L <=? ev_level ev)
    then [ASemihost SYS_WRITE 1 (rendered_line C vformat now args ev lvl)]
    else [].
Proof.
  unfold primary_trace. destruct (L_quiet L); [done|].
  by destruct (L_level L <=? ev_level ev).
Qed.

Lemma primary_trace_silent C vformat now L args ev lvl
    (P : action → Prop) `{!∀ a, Decision (P a)} :
  (∀ f, ¬ P (ARead f)) → ¬ P AClock → (∀ op fd d, ¬ P (ASemihost op fd d)) →
  filter P (primary_trace C vformat now L args ev lvl) = [].
Proof.
  intros Hread Hclock Hsink. unfold primary_trace.
  destruct (L_quiet L); [by rewrite filter_cons_False by apply Hread|].
  destruct (L_level L <=? ev_level ev);
    repeat (rewrite filter_cons_False by first [apply Hread|apply Hsink|done]);
    done.
Qed.

(** ** The registry along a run *)

Lemma packed_init : packed (L_callbacks L_init) [].
Proof.
  exists (replicate MAX_CALLBACKS no_callback).
  split_and!; [done|constructor|by apply Forall_replicate|done].
Qed.

Lemma packed_length cbs occ : packed cbs occ → (length occ ≤ MAX_CALLBACKS)%nat.
Proof. intros (free & -> & _ & _ & Hlen). rewrite length_app in Hlen. lia. Qed.

Lemma filter_set_all (occ : list Callback) :
  Forall (λ cb, cb_fn cb ≠ 0) occ → filter (λ cb, cb_fn cb ≠ 0) occ = occ.
Proof.
  induction 1 as [|cb occ Hcb _ IH]; [done|].
  by rewrite filter_cons_True, IH.
Qed.

Lemma filter_set_none (free : list Callback) :
  Forall (λ cb, cb_fn cb = 0) free → filter (λ cb, cb_fn cb ≠ 0) free = [].
Proof.
  induction 1 as [|cb free Hcb _ IH]; [done|].
  rewrite filter_cons_False; [done|]. by intros [].
Qed.

Lemma packed_visited cbs occ : packed cbs occ → visited cbs = occ.
Proof.
  intros (free & -> & Hocc & Hfree & _). destruct Hfree as [|c free Hc _].
  - rewrite app_nil_r. by apply visited_all.
  - by apply visited_app_free.
Qed.

Lemma packed_occupied cbs occ : packed cbs occ → occupied cbs = occ.
Proof.
  intros (free & -> & Hocc & Hfree & _). unfold occupied.
  by rewrite filter_app, filter_set_all, filter_set_none, app_nil_r.
Qed.

Lemma packed_dense cbs occ : packed cbs occ → dense cbs.
Proof.
  intros (free & -> & Hocc & Hfree & _) i j cb Hi Hnz Hj.
  destruct (decide (i < length occ)%nat) as [Hin|Hout].
  - destruct (lookup_lt_is_Some_2 occ j) as [cb' Hcb']; [lia|].
    exists cb'. split; [by apply lookup_app_l_Some|].
    by apply (proj1 (Forall_lookup _ _) Hocc j cb').
  - rewrite lookup_app_r in Hi by lia.
    by destruct (Hnz (proj1 (Forall_lookup _ _) Hfree _ cb Hi)).
Qed.


Lemma take_take_app {A} (n : nat) (l k : list A) :
  take n (take n l ++ k) = take n (l ++ k).
Proof.
  destruct (decide (length l ≤ n)%nat) as [Hle|Hgt].
  - by rewrite (take_ge l n).
  - rewrite take_app_le by (rewrite length_take; lia).
    rewrite take_take, Nat.min_id. by rewrite (take_app_le l k) by lia.
Qed.

(** Registration on a packed table: the entry is appended when it names a
    function and a slot is left. *)
Lemma add_callback_packed new cbs occ :
  packed cbs occ →
  ∃ cbs' r, add_callback_from MAX_CALLBACKS 0 new cbs = Some (cbs', r) ∧
            packed cbs' (take MAX_CALLBACKS
                           (occ ++ if cb_fn new =? 0 then [] else [new])).
Proof.
  intros (free & -> & Hocc & Hfree & Hlen).
  destruct Hfree as [|c free Hc Hfree].
  - rewrite app_nil_r in *. rewrite add_callback_from_full by done.
    eexists _, _. split; [done|].
    rewrite take_app_le, take_ge by lia.
    exists []. rewrite app_nil_r. split_and!; [done..|constructor|done].
  - rewrite add_callback_from_free; [|done..|lia|done].
    eexists _, _. split; [done|].
    rewrite length_app in Hlen. simpl in Hlen.
    destruct (cb_fn new =? 0) eqn:Hnew.
    + apply Z.eqb_eq in Hnew. rewrite app_nil_r, take_ge by lia.
      exists (new :: free). split_and!; [done..|by constructor|].
      rewrite length_app. simpl. lia.
    + apply Z.eqb_neq in Hnew.
      rewrite take_ge by (rewrite length_app; simpl; lia).
      exists free. rewrite <- app_assoc. split_and!; [done| |done|].
      * apply Forall_app. split; [done|]. by constructor.
      * rewrite length_app. simpl. lia.
Qed.

Lemma exec_calls_packed C vformat cs : ∀ W W' occ,
  packed (L_callbacks (W_L W)) occ →
  exec_calls C vformat cs W = Some W' →
  packed (L_callbacks (W_L W'))
         (take MAX_CALLBACKS (occ ++ registrations cs)).
Proof.
  induction cs as [|c cs IH]; intros W W' occ Hocc Hrun; simpl in Hrun.
  - injection Hrun as <-. pose proof (packed_length _ _ Hocc).
    by rewrite app_nil_r, take_ge.
  - destruct (exec_call C vformat c W) as [W1|] eqn:Hstep; [|done].
    simpl in Hrun. destruct c; simpl in Hstep.
    1-3: injection Hstep as Hstep; subst W1;
      change (registrations (_ :: cs)) with (registrations cs);
      eapply IH; [|exact Hrun]; exact Hocc.
    + unfold log_add_callback in Hstep.
      destruct (add_callback_packed
                  {| cb_fn := fn; cb_udata := udata; cb_level := level |}
                  _ _ Hocc) as (cbs' & r & Hadd & Hocc').
      rewrite Hadd, bind_Some in Hstep. injection Hstep as Hstep. subst W1.
      specialize (IH {| W_L := set_callbacks cbs' (W_L W); W_buf := W_buf W |}
                     _ _ Hocc' Hrun).
      rewrite take_take_app, <- app_assoc in IH.
      unfold registrations. cbn [omap list_omap cb_fn] in IH |- *.
      by destruct (fn =? 0).
    + destruct (log_log C vformat now (W_L W) (W_buf W) level file line fmt args)
        as [[buf tr]|]; [|done].
      rewrite bind_Some in Hstep. injection Hstep as Hstep. subst W1.
      change (registrations (_ :: cs)) with (registrations cs);
      eapply IH; [|exact Hrun]; exact Hocc.
    + destruct (log_level_string level); [|done].
      rewrite bind_Some in Hstep. injection Hstep as Hstep. subst W1.
      change (registrations (_ :: cs)) with (registrations cs);
      eapply IH; [|exact Hrun]; exact Hocc.
Qed.

(** After a run from the initial state the table holds, packed and in
    order, the first [MAX_CALLBACKS] registrations that named a function. *)
Lemma run_packed C vformat cs W :
  exec_calls C vformat cs (W_init C) = Some W →
  packed (L_callbacks (W_L W)) (take MAX_CALLBACKS (registrations cs)).
Proof.
  intros Hrun.
  exact (exec_calls_packed C vformat cs (W_init C) W [] packed_init Hrun).
Qed.

(** ** Registration, by the number of set slots *)

Lemma occupied_all cbs :
  length (occupied cbs) = length cbs → Forall (λ cb, cb_fn cb ≠ 0) cbs.
Proof.
  unfold occupied. induction cbs as [|cb cbs IH]; intros Hlen; [constructor|].
  pose proof (length_filter (λ cb, cb_fn cb ≠ 0) cbs) as Hle.
  destruct (decide (cb_fn cb ≠ 0)) as [Hnz|Hz].
  - rewrite filter_cons_True in Hlen by done. simpl in Hlen.
    constructor; [done|]. apply IH. lia.
  - rewrite filter_cons_False in Hlen by done. simpl in Hlen. lia.
Qed.

(** A table that is not full splits at its first unset slot. *)
Lemma first_unset_slot cbs :
  (length (occupied cbs) < length cbs)%nat →
  ∃ c post, cbs = visited cbs ++ c :: post ∧ cb_fn c = 0 ∧
            Forall (λ cb, cb_fn cb ≠ 0) (visited cbs).
Proof.
  intros Hlt. destruct (visited_split cbs) as (rest & Heq & Hvis & Hrest).
  destruct Hrest as [->|(c & post & -> & Hc)]; [|by eauto].
  rewrite app_nil_r in Heq. rewrite <- Heq in Hvis.
  apply filter_set_all in Hvis. unfold occupied in Hlt. rewrite Hvis in Hlt. lia.
Qed.

Lemma log_add_callback_free fn udata level L c post :
  L_callbacks L = visited (L_callbacks L) ++ c :: post → cb_fn c = 0 →
  Forall (λ cb, cb_fn cb ≠ 0) (visited (L_callbacks L)) →
  length (L_callbacks L) = MAX_CALLBACKS →
  log_add_callback fn udata level L
  = Some (set_callbacks
            (<[length (visited (L_callbacks L))
               := {| cb_fn := fn; cb_udata := udata; cb_level := level |}]>
               (L_callbacks L)) L, 0).
Proof.
  intros Heq Hc Hvis Hlen. unfold log_add_callback.
  remember (visited (L_callbacks L)) as pre eqn:Hpre.
  rewrite Heq. rewrite add_callback_from_free; [|done|done|lia|by rewrite <- Heq].
  rewrite bind_Some. rewrite insert_app_r_alt by lia.
  by rewrite Nat.sub_diag.
Qed.


(** ** The observer calls of a dispatch *)


Lemma packed_lookup_set cbs occ i cb :
  packed cbs occ → cbs !! i = Some cb → cb_fn cb ≠ 0 → occ !! i = Some cb.
Proof.
  intros (free & -> & Hocc & Hfree & _) Hi Hnz.
  destruct (decide (i < length occ)%nat) as [Hin|Hout].
  - by rewrite lookup_app_l in Hi.
  - rewrite lookup_app_r in Hi by lia.
    by destruct (Hnz (proj1 (Forall_lookup _ _) Hfree _ cb Hi)).
Qed.

(** The observer calls of a dispatch are those owed to the entries before
    the first unset slot, whatever the primary sink did. *)
Lemma log_log_observers C vformat now L buf level file line fmt args :
  buffer_ok C → Z.of_nat (length buf) = C →
  length (L_callbacks L) = MAX_CALLBACKS → dispatch_defined L level →
  ∃ buf' tr,
    log_log C vformat now L buf level file line fmt args = Some (buf', tr) ∧
    filter is_observer tr
    = observer_events 0 now args (call_event level file line fmt)
        (visited (L_callbacks L)).
Proof.
  intros HC Hlen Htab Hdef.
  destruct (log_log_shape C vformat HC now L buf level file line fmt args)
    as (buf' & sink_part & ev1 & Hlog & _ & _ & Hsilent & Hl1 & He1); [done..|].
  eexists buf', _. split; [exact Hlog|].
  unfold lock, unlock. rewrite !filter_app.
  rewrite !lock_hook_silent by silent.
  rewrite closing_read_silent by silent.
  rewrite visit_observers, Hsilent, !app_nil_r. simpl.
  by apply observer_events_level.
Qed.

Lemma observer_calls_filter tr :
  observer_calls (filter is_observer tr) = observer_calls tr.
Proof.
  unfold observer_calls. induction tr as [|a tr IH]; [done|].
  destruct a; try (rewrite filter_cons_False by (simpl; tauto); exact IH).
  rewrite filter_cons_True by done. cbn [omap list_omap]. by rewrite IH.
Qed.

Lemma observer_calls_events now args ev occ : ∀ i,
  observer_calls (observer_events i now args ev occ)
  = map (λ cb, (cb_fn cb, cb_udata cb))
        (filter (λ cb, cb_level cb <= ev_level ev) occ).
Proof.
  unfold observer_calls.
  induction occ as [|cb occ IH]; intros i; [done|]. cbn [observer_events].
  rewrite omap_app, IH.
  destruct (Z.leb_spec (cb_level cb) (ev_level ev)).
  - by rewrite filter_cons_True by done.
  - by rewrite filter_cons_False by lia.
Qed.

(** ** The fields of a line *)

Lemma digit_not_space d : 0 <= d < 10 → Ascii.eqb (digit d) " " = false.
Proof.
  intros Hd. unfold digit.
  assert (Z.to_nat d < 10)%nat as Hn by lia.
  destruct (Z.to_nat d) as [|[|[|[|[|[|[|[|[|[|n]]]]]]]]]]; try reflexivity. lia.
Qed.

Lemma level_field_after_time t name rest :
  upto_space (name ++ " "%char :: rest) = name →
  level_field (hms t ++ " "%char :: name ++ " "%char :: rest) = name.
Proof.
  intros Hname. unfold level_field, hms, two_digits.
  cbn [app after_space].
  rewrite !digit_not_space by (apply Z.mod_pos_bound; lia).
  change (Ascii.eqb ":" " ") with false. cbn [after_space].
  change (Ascii.eqb " " " ") with true. cbn iota. exact Hname.
Qed.

(** The six names: no terminator inside, four or five upper-case letters,
    none of them a space. *)
Lemma level_name_facts level lvl :
  log_level_string level = Some lvl →
  cstr lvl = String.list_ascii_of_string lvl ∧
  String.length lvl = (if bool_decide (level = 2 ∨ level = 3) then 4%nat else 5%nat) ∧
  forallb is_upper (String.list_ascii_of_string lvl) = true ∧
  (length (String.list_ascii_of_string lvl) ≤ 5)%nat ∧
  ∀ rest, upto_space (String.list_ascii_of_string lvl ++ " "%char :: rest)
          = String.list_ascii_of_string lvl.
Proof.
  intros Hlvl.
  assert (0 <= level < 6) as Hrange by (apply log_level_string_Some; eauto).
  assert (level = 0 ∨ level = 1 ∨ level = 2 ∨ level = 3 ∨ level = 4 ∨ level = 5)
    as Hcases by lia.
  destruct Hcases as [->|[->|[->|[->|[->| ->]]]]];
    vm_compute in Hlvl; injection Hlvl as <-;
    split_and!; try reflexivity; simpl; lia.
Qed.

(** * The dispatcher's contract *)

(** C1.  A dispatch enters the primary sink exactly when the quiet flag is
    clear and the level reaches the threshold.  When both hold (and the
    level is one of the table, as the formatter needs), the trace holds one
    semihosting write, of the rendered line; when one fails, at any level,
    the trace holds none and the buffer is untouched. *)
Theorem primary_sink_iff_unquiet_and_threshold
    C vformat now L buf level file line fmt args :
  buffer_ok C → Z.of_nat (length buf) = C →
  length (L_callbacks L) = MAX_CALLBACKS →
  (L_quiet L = false ∧ L_level L <= level → 0 <= level < 6 →
   ∃ buf' tr lvl,
     log_log C vformat now L buf level file line fmt args = Some (buf', tr) ∧
     log_level_string level = Some lvl ∧
     filter is_sink tr
     = [ASemihost SYS_WRITE 1
          (rendered_line C vformat now args
             (call_event level file line fmt) lvl)]) ∧
  (¬ (L_quiet L = false ∧ L_level L <= level) →
   ∃ tr,
     log_log C vformat now L buf level file line fmt args = Some (buf, tr) ∧
     filter is_sink tr = []).
Proof.
  intros HC Hlen Htab. split.
  - intros [Hquiet Hreach] Hlevel.
    destruct (proj1 (log_level_string_Some level) Hlevel) as [lvl Hlvl].
    destruct (log_log_spec C vformat HC now L buf level file line fmt args lvl)
      as (buf' & ev1 & Hlog & _); [done..|].
    eexists buf', _, lvl. split; [exact Hlog|]. split; [done|].
    unfold lock, unlock. rewrite !filter_app.
    rewrite !lock_hook_silent by silent.
    rewrite visit_only_observers by silent.
    rewrite closing_read_silent by silent.
    rewrite primary_trace_sink, app_nil_r, Hquiet. cbn [negb andb ev_level call_event].
    by assert ((L_level L <=? level) = true) as -> by (by apply Z.leb_le).
  - intros Hskip. eexists. split; [by apply log_log_skipping|].
    unfold lock, unlock. rewrite !filter_app.
    rewrite !lock_hook_silent by silent.
    rewrite visit_only_observers by silent.
    rewrite closing_read_silent by silent.
    by destruct (L_quiet L).
Qed.

Lemma primary_sink_iff_unquiet_and_threshold_witness :
  (∃ buf' tr,
     log_log 64 printf_subset demo_now demo_L (demo_buf 64)
       2 "main.c" 11 "y=%d" [VInt 7] = Some (buf', tr) ∧
     filter is_sink tr
     = [ASemihost SYS_WRITE 1
          (String.list_ascii_of_string "12:34:56 INFO main.c:11: y=7"
           ++ [newline])]) ∧
  (∃ tr,
     log_log 64 printf_subset demo_now (log_set_level 2 demo_L) (demo_buf 64)
       1 "main.c" 10 "x=%d" [VInt 5] = Some (demo_buf 64, tr) ∧
     filter is_sink tr = []).
Proof.
  split.
  - destruct (primary_sink_iff_unquiet_and_threshold 64 printf_subset demo_now
                demo_L (demo_buf 64) 2 "main.c" 11 "y=%d" [VInt 7])
      as [Hfire _].
    + unfold buffer_ok, INT_MAX. lia.
    + reflexivity.
    + reflexivity.
    + destruct Hfire as (buf' & tr & lvl & Hlog & Hlvl & Hsink).
      * split; [reflexivity|]. simpl. lia.
      * lia.
      * exists buf', tr. split; [exact Hlog|]. rewrite Hsink.
        vm_compute in Hlvl. injection Hlvl as <-. vm_compute. reflexivity.
  - apply (primary_sink_iff_unquiet_and_threshold 64 printf_subset demo_now
             (log_set_level 2 demo_L) (demo_buf 64) 1 "main.c" 10 "x=%d"
             [VInt 5]).
    + unfold buffer_ok, INT_MAX. lia.
    + reflexivity.
    + reflexivity.
    + simpl. lia.
Defined.



(** * The registry's contract *)

(** C3.  While fewer than [MAX_CALLBACKS] slots are set, registration
    stores the entry in the first unset slot and returns 0: the table of
    the state it leaves holds the entry there and is as before in every
    other slot, and the hook, its user data, the threshold and the quiet
    flag are as before.  With all [MAX_CALLBACKS] slots set it returns -1
    and leaves the state as it was. *)
Theorem register_until_full fn udata level L :
  length (L_callbacks L) = MAX_CALLBACKS →
  ((length (occupied (L_callbacks L)) < MAX_CALLBACKS)%nat →
     (∃ cb, L_callbacks L !! length (visited (L_callbacks L)) = Some cb ∧
            cb_fn cb = 0) ∧
     ∃ L',
       log_add_callback fn udata level L = Some (L', 0) ∧
       L' = {| L_udata := L_udata L; L_lock := L_lock L; L_level := L_level L;
               L_quiet := L_quiet L;
               L_callbacks :=
                 <[length (visited (L_callbacks L))
                   := {| cb_fn := fn; cb_udata := udata; cb_level := level |}]>
                   (L_callbacks L) |} ∧
       L_callbacks L' !! length (visited (L_callbacks L))
       = Some {| cb_fn := fn; cb_udata := udata; cb_level := level |} ∧
       (∀ j, j ≠ length (visited (L_callbacks L)) →
             L_callbacks L' !! j = L_callbacks L !! j) ∧
       length (L_callbacks L') = MAX_CALLBACKS) ∧
  (length (occupied (L_callbacks L)) = MAX_CALLBACKS →
     occupied (L_callbacks L) = L_callbacks L ∧
     log_add_callback fn udata level L = Some (L, -1)).
Proof.
  intros Hlen. split.
  - intros Hroom. rewrite <- Hlen in Hroom.
    destruct (first_unset_slot _ Hroom) as (c & post & Heq & Hc & Hvis).
    pose proof (list_lookup_middle (visited (L_callbacks L)) post c _ eq_refl)
      as Hmid.
    rewrite <- Heq in Hmid. split; [by exists c|].
    eexists. split; [by eapply log_add_callback_free|].
    unfold set_callbacks. cbn [L_callbacks]. split_and!.
    + reflexivity.
    + apply list_lookup_insert_eq. by eapply lookup_lt_Some.
    + intros j Hj. by apply list_lookup_insert_ne.
    + by rewrite length_insert.
  - intros Hfull. rewrite <- Hlen in Hfull. apply occupied_all in Hfull.
    split; [by apply filter_set_all|].
    unfold log_add_callback. rewrite add_callback_from_full by done.
    by rewrite bind_Some, set_callbacks_same.
Qed.

Lemma register_until_full_witness :
  (∃ L',
     log_add_callback 300 3 5 demo_L = Some (L', 0) ∧
     L' = {| L_udata := 7; L_lock := 700; L_level := 0; L_quiet := false;
             L_callbacks :=
               [{| cb_fn := 100; cb_udata := 1; cb_level := 3 |};
                {| cb_fn := 200; cb_udata := 2; cb_level := 4 |};
                {| cb_fn := 300; cb_udata := 3; cb_level := 5 |}]
               ++ replicate 29 no_callback |} ∧
     L_callbacks L' !! 2%nat
     = Some {| cb_fn := 300; cb_udata := 3; cb_level := 5 |} ∧
     (∀ j, j ≠ 2%nat → L_callbacks L' !! j = L_callbacks demo_L !! j) ∧
     length (L_callbacks L') = MAX_CALLBACKS) ∧
  log_add_callback 300 3 5 full_L = Some (full_L, -1).
Proof.
  split.
  - apply (register_until_full 300 3 5 demo_L); [reflexivity|].
    vm_compute. lia.
  - apply (register_until_full 300 3 5 full_L); reflexivity.
Defined.

(** The registration of the example, run: the state it returns differs
    from the one it was given. *)
Example registration_changes_the_table :
  (fst <$> log_add_callback 300 3 5 demo_L) ≫= (λ L', L_callbacks L' !! 2%nat)
  = Some {| cb_fn := 300; cb_udata := 3; cb_level := 5 |} ∧
  L_callbacks demo_L !! 2%nat = Some no_callback.
Proof. split; reflexivity. Qed.

(** * The formatter's contract *)

(** C4.  On a buffer of [C] bytes the formatter is defined: each of its
    stores lands at an index from 0 to [C - 1] ([store] has no value at any
    other), and the buffer keeps its [C] bytes.  The bytes handed to the
    host are a prefix of the buffer of at most [C - 1] bytes that ends in
    the newline.  They are the text of the line cut at [C - 2] characters,
    then the newline: when the text does not fit, the newline stands at
    index [C - 2], the last one before the byte kept for the terminator. *)
Theorem formatter_in_bounds_newline_terminated C vformat buf ev t lvl :
  buffer_ok C → Z.of_nat (length buf) = C →
  ev_time ev = Some t → log_level_string (ev_level ev) = Some lvl →
  ∃ buf' out,
    stdout_callback C vformat buf ev = Some (buf', ASemihost SYS_WRITE 1 out) ∧
    Z.of_nat (length buf') = C ∧
    (∀ b i c, Z.of_nat (length b) = C → is_Some (store b i c) → 0 <= i <= C - 1) ∧
    out = take (length out) buf' ∧
    Z.of_nat (length out) <= C - 1 ∧
    last out = Some newline ∧
    out = take (Z.to_nat (C - 2)) (line_text C vformat ev t lvl) ++ [newline] ∧
    (C - 2 <= Z.of_nat (length (line_text C vformat ev t lvl)) →
       buf' !! Z.to_nat (C - 2) = Some newline ∧
       Z.of_nat (length out) = C - 1).
Proof.
  intros HC Hlen Ht Hlvl.
  destruct (stdout_callback_spec C vformat HC buf ev t lvl Hlen Ht Hlvl)
    as (buf' & pos & Hcall & Hlen' & Hpos & Hout).
  eexists buf', _. split; [exact Hcall|].
  set (text := line_text C vformat ev t lvl) in *.
  assert (Z.of_nat (length (take (Z.to_nat (C - 2)) text ++ [newline])) = pos)
    as Hl.
  { rewrite <- Hout, length_take. lia. }
  split_and!; [done| | | |apply last_snoc|done|].
  - intros b i c Hb [b' Hstore].
    destruct (decide (0 <= i < Z.of_nat (length b))) as [|Hout']; [lia|].
    by rewrite store_outside in Hstore.
  - rewrite <- Hl in Hout at 1. by rewrite Nat2Z.id in Hout.
  - lia.
  - intros Hlong. rewrite length_app, length_take in Hl. simpl in Hl.
    split; [|rewrite length_app, length_take; simpl; lia].
    rewrite <- (lookup_take_lt buf' (Z.to_nat pos)) by lia.
    rewrite Hout. apply list_lookup_middle. rewrite length_take. lia.
Qed.

Lemma formatter_in_bounds_newline_terminated_witness :
  ∃ buf',
    stdout_callback 16 printf_subset (demo_buf 16) demo_event
    = Some (buf', ASemihost SYS_WRITE 1
                    (String.list_ascii_of_string "12:34:56 INFO " ++ [newline])) ∧
    buf' !! 14%nat = Some newline.
Proof.
  destruct (formatter_in_bounds_newline_terminated 16 printf_subset
              (demo_buf 16) demo_event demo_now "INFO")
    as (buf' & out & Hcall & _ & _ & _ & _ & _ & Hout & Hlong).
  - unfold buffer_ok, INT_MAX. lia.
  - reflexivity.
  - reflexivity.
  - reflexivity.
  - exists buf'. rewrite Hcall, Hout. split; [reflexivity|].
    apply Hlong. vm_compute. discriminate.
Defined.

(** With one byte of buffer the newline is stored at index -1: the
    formatter has no defined behaviour there. *)
Example one_byte_buffer_undefined :
  stdout_callback 1 printf_subset (demo_buf 1) demo_event = None.
Proof. reflexivity. Qed.

(** * The lock hook's contract *)

(** C5.  With a lock hook installed, every defined dispatch reads the hook
    and its user data, calls the hook to acquire, then does all the rest
    (the reads of the quiet flag, the threshold and the table, the sink,
    the observers), and last calls the hook to release: each call occurs
    once, and none in between. *)
Theorem lock_brackets_dispatch C vformat now L buf level file line fmt args :
  buffer_ok C → Z.of_nat (length buf) = C →
  length (L_callbacks L) = MAX_CALLBACKS → dispatch_defined L level →
  L_lock L ≠ 0 →
  ∃ buf' mid,
    log_log C vformat now L buf level file line fmt args
    = Some (buf',
            [ARead FLock; ARead FUdata; ALockHook (L_lock L) true (L_udata L)]
            ++ mid
            ++ [ARead FLock; ARead FUdata;
                ALockHook (L_lock L) false (L_udata L)]) ∧
    filter is_hook mid = [].
Proof.
  intros HC Hlen Htab Hdef Hhook.
  destruct (log_log_shape C vformat HC now L buf level file line fmt args)
    as (buf' & sink_part & ev1 & Hlog & _ & Hsilent & _); [done..|].
  exists buf', (sink_part
                ++ visit 0 now args ev1 (visited (L_callbacks L))
                ++ closing_read (L_callbacks L)).
  split.
  - rewrite Hlog. unfold lock, unlock, call_lock_hook.
    apply Z.eqb_neq in Hhook. rewrite Hhook.
    by rewrite <- !app_assoc.
  - rewrite !filter_app, Hsilent.
    rewrite visit_only_observers by silent.
    by rewrite closing_read_silent by silent.
Qed.

Lemma lock_brackets_dispatch_witness :
  ∃ buf' mid,
    log_log 64 printf_subset demo_now (log_set_quiet true demo_L) (demo_buf 64)
      5 "main.c" 10 "halt" []
    = Some (buf',
            [ARead FLock; ARead FUdata; ALockHook 700 true 7]
            ++ mid
            ++ [ARead FLock; ARead FUdata; ALockHook 700 false 7]) ∧
    filter is_hook mid = [].
Proof.
  apply (lock_brackets_dispatch 64 printf_subset demo_now
           (log_set_quiet true demo_L) (demo_buf 64) 5 "main.c" 10 "halt" []).
  - unfold buffer_ok, INT_MAX. lia.
  - reflexivity.
  - reflexivity.
  - intros Hquiet. discriminate Hquiet.
  - discriminate.
Defined.

(** The same dispatch, in full. *)
Example demo_dispatch_trace :
  snd <$> log_log 64 printf_subset demo_now (log_set_quiet true demo_L)
            (demo_buf 64) 5 "main.c" 10 "halt" []
  = Some ([ARead FLock; ARead FUdata; ALockHook 700 true 7;
           ARead FQuiet;
           ARead (FCallback 0); AClock;
           AObserver 0 100
             {| ev_ap := []; ev_fmt := "halt"; ev_file := "main.c";
                ev_time := Some demo_now; ev_udata := 1; ev_line := 10;
                ev_level := 5 |};
           ARead (FCallback 1);
           AObserver 1 200
             {| ev_ap := []; ev_fmt := "halt"; ev_file := "main.c";
                ev_time := Some demo_now; ev_udata := 2; ev_line := 10;
                ev_level := 5 |};
           ARead (FCallback 2);
           ARead FLock; ARead FUdata; ALockHook 700 false 7]).
Proof. reflexivity. Qed.

(** * Order *)

(** C6.  After any run of the public operations, the trace of a defined
    dispatch splits in two: a first part with the lock and the primary sink
    and no observer call, and a second part with no sink write, whose
    observer calls are those of the registrations that named a function
    (the first [MAX_CALLBACKS] of them) and whose level the event reaches,
    in the order of registration. *)
Theorem sink_first_then_observers_in_registration_order
    C vformat cs W now level file line fmt args :
  buffer_ok C → exec_calls C vformat cs (W_init C) = Some W →
  dispatch_defined (W_L W) level →
  ∃ buf' pre post,
    log_log C vformat now (W_L W) (W_buf W) level file line fmt args
    = Some (buf', pre ++ post) ∧
    filter is_observer pre = [] ∧
    filter is_sink post = [] ∧
    observer_calls (pre ++ post)
    = map (λ cb, (cb_fn cb, cb_udata cb))
          (filter (λ cb, cb_level cb <= level)
                  (take MAX_CALLBACKS (registrations cs))).
Proof.
  intros HC Hrun Hdef.
  pose proof (run_packed C vformat cs W Hrun) as Hpacked.
  pose proof (exec_calls_buf_length C vformat HC cs _ _
                (W_init_buf_length C HC) Hrun) as Hbuf.
  assert (length (L_callbacks (W_L W)) = MAX_CALLBACKS) as Htab
    by (by destruct Hpacked as (? & _ & _ & _ & ?)).
  destruct (log_log_shape C vformat HC now (W_L W) (W_buf W) level file line fmt
              args)
    as (buf' & sink_part & ev1 & Hlog & _ & _ & Hsilent & _); [done..|].
  destruct (log_log_observers C vformat now (W_L W) (W_buf W) level file line
              fmt args) as (buf2 & tr & Hlog2 & Hobs); [done..|].
  set (pre := lock (W_L W) ++ sink_part).
  set (post := (visit 0 now args ev1 (visited (L_callbacks (W_L W)))
                ++ closing_read (L_callbacks (W_L W))) ++ unlock (W_L W)).
  assert (tr = pre ++ post) as Htr.
  { unfold pre, post. rewrite <- app_assoc. congruence. }
  exists buf', pre, post. split; [congruence|]. split_and!.
  - unfold pre, lock. rewrite filter_app, Hsilent.
    by rewrite lock_hook_silent by silent.
  - unfold post, unlock. rewrite !filter_app.
    rewrite lock_hook_silent by silent.
    rewrite visit_only_observers by silent.
    by rewrite closing_read_silent by silent.
  - rewrite <- Htr, <- observer_calls_filter, Hobs.
    rewrite observer_calls_events. simpl.
    by rewrite (packed_visited _ _ Hpacked).
Qed.

Lemma sink_first_then_observers_in_registration_order_witness :
  exec_calls 64 printf_subset demo_calls (W_init 64) = Some demo_W ∧
  ∃ buf' tr,
    log_log 64 printf_subset demo_now (W_L demo_W) (W_buf demo_W)
      4 "main.c" 10 "halt" [] = Some (buf', tr) ∧
    observer_calls tr = [(100, 1); (200, 2)].
Proof.
  split; [reflexivity|].
  destruct (sink_first_then_observers_in_registration_order 64 printf_subset
              demo_calls demo_W demo_now 4 "main.c" 10 "halt" [])
    as (buf' & pre & post & Hlog & _ & _ & Hcalls).
  - unfold buffer_ok, INT_MAX. lia.
  - reflexivity.
  - intros _ _. lia.
  - exists buf', (pre ++ post). split; [exact Hlog|].
    rewrite Hcalls. reflexivity.
Defined.

(** C9.  In every state the public operations reach, the table is dense:
    a set slot has only set slots before it.  So the entries the dispatch
    loop reaches before the first unset slot are all the set ones, the loop
    is the walk over them, and they are, in order, the first
    [MAX_CALLBACKS] registrations that named a function. *)
Theorem registry_dense_in_reachable_states C vformat W :
  reachable C vformat W →
  length (L_callbacks (W_L W)) = MAX_CALLBACKS ∧
  dense (L_callbacks (W_L W)) ∧
  visited (L_callbacks (W_L W)) = occupied (L_callbacks (W_L W)) ∧
  (∀ now args ev,
     observers_from MAX_CALLBACKS 0 now (L_callbacks (W_L W)) args ev
     = Some (visit 0 now args ev (occupied (L_callbacks (W_L W)))
             ++ closing_read (L_callbacks (W_L W)))) ∧
  (∀ cs, exec_calls C vformat cs (W_init C) = Some W →
     occupied (L_callbacks (W_L W)) = take MAX_CALLBACKS (registrations cs)).
Proof.
  intros [cs Hrun].
  pose proof (run_packed C vformat cs W Hrun) as Hpacked.
  assert (length (L_callbacks (W_L W)) = MAX_CALLBACKS) as Htab
    by (by destruct Hpacked as (? & _ & _ & _ & ?)).
  pose proof (packed_visited _ _ Hpacked) as Hvis.
  pose proof (packed_occupied _ _ Hpacked) as Hocc.
  split_and!.
  - done.
  - by eapply packed_dense.
  - congruence.
  - intros now args ev. rewrite observers_from_all by done. congruence.
  - intros cs' Hrun'. by apply packed_occupied, run_packed with C vformat.
Qed.

Lemma registry_dense_in_reachable_states_witness :
  dense (L_callbacks demo_L) ∧
  occupied (L_callbacks demo_L)
  = [{| cb_fn := 100; cb_udata := 1; cb_level := 3 |};
     {| cb_fn := 200; cb_udata := 2; cb_level := 4 |}].
Proof.
  destruct (registry_dense_in_reachable_states 64 printf_subset demo_W)
    as (_ & Hdense & _ & _ & Hregs).
  - exists demo_calls. reflexivity.
  - split; [exact Hdense|]. exact (Hregs demo_calls eq_refl).
Defined.

(** C10.  Registering a null function while a slot is unset returns 0 and
    writes the entry into the first unset slot, which stays unset: the
    entries the dispatch reaches and the set slots are as before, every
    dispatch loop runs as before, and the next registration has the result
    it would have had without the null one. *)
Theorem null_registration_is_lost udata level L :
  length (L_callbacks L) = MAX_CALLBACKS →
  (length (occupied (L_callbacks L)) < MAX_CALLBACKS)%nat →
  ∃ L',
    log_add_callback 0 udata level L = Some (L', 0) ∧
    L_callbacks L'
    = <[length (visited (L_callbacks L))
        := {| cb_fn := 0; cb_udata := udata; cb_level := level |}]>
        (L_callbacks L) ∧
    L_callbacks L' !! length (visited (L_callbacks L))
    = Some {| cb_fn := 0; cb_udata := udata; cb_level := level |} ∧
    visited (L_callbacks L') = visited (L_callbacks L) ∧
    occupied (L_callbacks L') = occupied (L_callbacks L) ∧
    (∀ now args ev,
       observers_from MAX_CALLBACKS 0 now (L_callbacks L') args ev
       = observers_from MAX_CALLBACKS 0 now (L_callbacks L) args ev) ∧
    (∀ fn' udata' level',
       log_add_callback fn' udata' level' L'
       = log_add_callback fn' udata' level' L).
Proof.
  intros Hlen Hroom. rewrite <- Hlen in Hroom.
  destruct (first_unset_slot _ Hroom) as (c & post & Heq & Hc & Hvis).
  set (null := {| cb_fn := 0; cb_udata := udata; cb_level := level |}).
  set (k := length (visited (L_callbacks L))) in *.
  assert (<[k := null]> (L_callbacks L) = visited (L_callbacks L) ++ null :: post)
    as Hins.
  { rewrite Heq at 1. unfold k. rewrite insert_app_r_alt by lia.
    by rewrite Nat.sub_diag. }
  assert (visited (<[k := null]> (L_callbacks L)) = visited (L_callbacks L))
    as Hvis'.
  { rewrite Hins. by apply visited_app_free. }
  exists (set_callbacks (<[k := null]> (L_callbacks L)) L).
  split; [eapply log_add_callback_free; eassumption|].
  split; [reflexivity|]. cbn [L_callbacks set_callbacks].
  split; [rewrite Hins; by apply list_lookup_middle|].
  split; [exact Hvis'|]. split; [|split].
  - unfold occupied. rewrite Hins.
    transitivity (filter (λ cb, cb_fn cb ≠ 0)
                    (visited (L_callbacks L) ++ c :: post));
      [|by rewrite <- Heq].
    rewrite !filter_app.
    rewrite !(filter_cons_False _ _ post); [reflexivity|by intros []..].
  - intros now args ev.
    rewrite (observers_from_all now args (<[k := null]> (L_callbacks L)))
      by (rewrite length_insert; exact Hlen).
    rewrite (observers_from_all now args (L_callbacks L)) by exact Hlen.
    unfold closing_read. rewrite Hvis', length_insert. reflexivity.
  - intros fn' udata' level'.
    rewrite (log_add_callback_free fn' udata' level' L c post Heq Hc Hvis Hlen).
    rewrite (log_add_callback_free fn' udata' level'
               (set_callbacks (<[k := null]> (L_callbacks L)) L) null post);
      cbn [L_callbacks set_callbacks].
    + rewrite Hvis', list_insert_insert_eq. reflexivity.
    + rewrite Hvis'. exact Hins.
    + reflexivity.
    + rewrite Hvis'. exact Hvis.
    + rewrite length_insert. exact Hlen.
Qed.

Lemma null_registration_is_lost_witness :
  ∃ L',
    log_add_callback 0 9 9 demo_L = Some (L', 0) ∧
    occupied (L_callbacks L') = occupied (L_callbacks demo_L) ∧
    log_add_callback 300 3 5 L' = log_add_callback 300 3 5 demo_L.
Proof.
  destruct (null_registration_is_lost 9 9 demo_L)
    as (L' & Hadd & _ & _ & _ & Hocc & _ & Hnext).
  - reflexivity.
  - vm_compute. lia.
  - exists L'. split; [exact Hadd|]. split; [exact Hocc|]. exact (Hnext 300 3 5).
Defined.

(** * The wire format *)

(** C7, as the code has it.  The line handed to the host is one byte longer
    than its text, up to [C - 1] bytes: never the full capacity [C], whose
    last byte the formatter keeps for the terminator of [vsnprintf]. *)
Theorem emitted_length_at_most_capacity_minus_one C vformat buf ev t lvl :
  buffer_ok C → Z.of_nat (length buf) = C →
  ev_time ev = Some t → log_level_string (ev_level ev) = Some lvl →
  ∃ buf' out,
    stdout_callback C vformat buf ev = Some (buf', ASemihost SYS_WRITE 1 out) ∧
    Z.of_nat (length out)
    = Z.min (Z.of_nat (length (line_text C vformat ev t lvl)) + 1) (C - 1).
Proof.
  intros HC Hlen Ht Hlvl.
  destruct (stdout_callback_spec C vformat HC buf ev t lvl Hlen Ht Hlvl)
    as (buf' & pos & Hcall & _).
  eexists buf', _. split; [exact Hcall|].
  unfold buffer_ok in HC. rewrite length_app, length_take. simpl. lia.
Qed.

Lemma emitted_length_at_most_capacity_minus_one_witness :
  ∃ buf' out,
    stdout_callback 16 printf_subset (demo_buf 16) demo_event
    = Some (buf', ASemihost SYS_WRITE 1 out) ∧
    length out = 15%nat.
Proof.
  destruct (emitted_length_at_most_capacity_minus_one 16 printf_subset
              (demo_buf 16) demo_event demo_now "INFO")
    as (buf' & out & Hcall & Hlen).
  - unfold buffer_ok, INT_MAX. lia.
  - reflexivity.
  - reflexivity.
  - reflexivity.
  - exists buf', out. split; [exact Hcall|].
    apply Nat2Z.inj. rewrite Hlen. reflexivity.
Defined.

(** C7, as the spec has it, fails: with a capacity of 16 a line of 28
    characters is cut to 15 bytes, and no event at all yields 16. *)
Lemma emitted_length_never_capacity :
  snd <$> stdout_callback 16 printf_subset (demo_buf 16) demo_event
  = Some (ASemihost SYS_WRITE 1
            (String.list_ascii_of_string "12:34:56 INFO " ++ [newline])) ∧
  ∀ vformat buf ev buf' op fd out,
    Z.of_nat (length buf) = 16 →
    stdout_callback 16 vformat buf ev = Some (buf', ASemihost op fd out) →
    length out ≠ 16%nat.
Proof.
  split; [reflexivity|].
  intros vformat buf ev buf' op fd out Hlen Hcall.
  assert (buffer_ok 16) as HC by (unfold buffer_ok, INT_MAX; lia).
  destruct (stdout_callback_inv 16 vformat HC _ _ _ Hlen Hcall)
    as (t & lvl & Ht & Hlvl).
  destruct (stdout_callback_spec 16 vformat HC buf ev t lvl Hlen Ht Hlvl)
    as (buf2 & pos & Hcall2 & _).
  set (text := line_text 16 vformat ev t lvl) in *.
  assert (out = take (Z.to_nat (16 - 2)) text ++ [newline]) as -> by congruence.
  rewrite length_app, length_take. cbn [length]. lia.
Qed.

(** C8, as the code has it.  In a buffer with room for them, the line
    starts with the eight characters of the time, a space, the name of the
    event's level in [level_strings] and a space; the name is the second
    field of the line, is made of upper-case letters, and has four
    characters for INFO and WARN and five for the other levels: it is not
    padded. *)
Theorem level_field_is_unpadded_level_name C vformat buf ev t lvl :
  buffer_ok C → 17 <= C → Z.of_nat (length buf) = C →
  ev_time ev = Some t → log_level_string (ev_level ev) = Some lvl →
  ∃ buf' rest,
    stdout_callback C vformat buf ev
    = Some (buf', ASemihost SYS_WRITE 1
                    (hms t ++ " "%char :: String.list_ascii_of_string lvl
                     ++ " "%char :: rest)) ∧
    level_field (hms t ++ " "%char :: String.list_ascii_of_string lvl
                 ++ " "%char :: rest)
    = String.list_ascii_of_string lvl ∧
    level_strings !! Z.to_nat (ev_level ev) = Some lvl ∧
    forallb is_upper (String.list_ascii_of_string lvl) = true ∧
    String.length lvl
    = (if bool_decide (ev_level ev = 2 ∨ ev_level ev = 3) then 4%nat else 5%nat).
Proof.
  intros HC Hbig Hlen Ht Hlvl.
  destruct (stdout_callback_spec C vformat HC buf ev t lvl Hlen Ht Hlvl)
    as (buf' & pos & Hcall & _).
  destruct (level_name_facts _ _ Hlvl)
    as (Hcstr & Hsize & Hupper & Hfive & Hfield).
  set (tail := cstr (ev_file ev) ++ [":"%char] ++ decimal (ev_line ev)
               ++ [":"%char; " "%char] ++ message_text vformat ev).
  set (head := hms t ++ [" "%char] ++ String.list_ascii_of_string lvl
               ++ [" "%char]).
  assert (line_text C vformat ev t lvl = head ++ tail) as Htext.
  { unfold line_text, time_text, head, tail.
    assert ((8 <? C) = true) as -> by (apply Z.ltb_lt; lia).
    rewrite Hcstr. by rewrite <- !app_assoc. }
  assert (length head ≤ Z.to_nat (C - 2))%nat as Hhead.
  { unfold head. rewrite !length_app, length_hms. simpl. lia. }
  exists buf', (take (Z.to_nat (C - 2) - length head) tail ++ [newline]).
  split_and!; [|by apply level_field_after_time| |done..].
  - rewrite Hcall, Htext, take_app_ge by done. unfold head.
    by rewrite <- !app_assoc.
  - unfold log_level_string in Hlvl. by destruct (0 <=? ev_level ev).
Qed.

Lemma level_field_is_unpadded_level_name_witness :
  ∃ buf' rest,
    stdout_callback 64 printf_subset (demo_buf 64) demo_event
    = Some (buf', ASemihost SYS_WRITE 1
                    (String.list_ascii_of_string "12:34:56 INFO " ++ rest)) ∧
    String.length "INFO" = 4%nat.
Proof.
  destruct (level_field_is_unpadded_level_name 64 printf_subset (demo_buf 64)
              demo_event demo_now "INFO")
    as (buf' & rest & Hcall & _ & _ & _ & Hsize).
  - unfold buffer_ok, INT_MAX. lia.
  - lia.
  - reflexivity.
  - reflexivity.
  - reflexivity.
  - exists buf', rest. split; [exact Hcall|exact Hsize].
Defined.

(** C8, as the spec has it, fails: the LEVEL field of an INFO line has four
    characters, not five. *)
Lemma level_field_of_info_line :
  snd <$> stdout_callback 64 printf_subset (demo_buf 64) demo_event
  = Some (ASemihost SYS_WRITE 1
            (String.list_ascii_of_string "12:34:56 INFO main.c:11: y=7"
             ++ [newline])) ∧
  level_field (String.list_ascii_of_string "12:34:56 INFO main.c:11: y=7"
               ++ [newline])
  = String.list_ascii_of_string "INFO" ∧
  length (level_field (String.list_ascii_of_string "12:34:56 INFO main.c:11: y=7"
                       ++ [newline])) = 4%nat.
Proof. split_and!; reflexivity. Qed.

(** * Further properties of the formatter *)

Lemma line_text_header C vformat ev t lvl :
  line_text C vformat ev t lvl
  = header_text C ev t lvl ++ message_text vformat ev.
Proof. unfold line_text, header_text. by rewrite <- !app_assoc. Qed.

(** X1.  A line is handed to the host whole, text and newline, exactly when
    its text has at most [C - 2] characters: a text of [C - 1] characters,
    which the buffer holds with its terminator, still loses its last
    character to the newline. *)
Theorem line_emitted_whole_iff_fits C vformat buf ev t lvl :
  buffer_ok C → Z.of_nat (length buf) = C →
  ev_time ev = Some t → log_level_string (ev_level ev) = Some lvl →
  ∃ buf' out,
    stdout_callback C vformat buf ev = Some (buf', ASemihost SYS_WRITE 1 out) ∧
    (out = line_text C vformat ev t lvl ++ [newline]
     ↔ Z.of_nat (length (line_text C vformat ev t lvl)) <= C - 2) ∧
    (Z.of_nat (length (line_text C vformat ev t lvl)) = C - 1 →
     ∃ c, line_text C vformat ev t lvl ++ [newline] = removelast out ++ [c; newline]).
Proof.
  intros HC Hlen Ht Hlvl.
  destruct (stdout_callback_spec C vformat HC buf ev t lvl Hlen Ht Hlvl)
    as (buf' & pos & Hcall & _).
  eexists buf', _. split; [exact Hcall|].
  set (text := line_text C vformat ev t lvl).
  unfold buffer_ok in HC. split.
  - split.
    + intros Heq%app_inv_tail. apply (f_equal length) in Heq.
      rewrite length_take in Heq. lia.
    + intros Hfits. by rewrite take_ge by lia.
  - intros Hlong. rewrite removelast_last.
    destruct (lookup_lt_is_Some_2 text (Z.to_nat (C - 2))) as [c Hc]; [lia|].
    exists c. rewrite <- (take_drop (Z.to_nat (C - 2)) text) at 1.
    rewrite <- app_assoc. f_equal.
    rewrite (drop_S _ c _ Hc), drop_ge by lia. done.
Qed.

Lemma line_emitted_whole_iff_fits_witness :
  ∃ buf',
    stdout_callback 30 printf_subset (demo_buf 30) demo_event
    = Some (buf', ASemihost SYS_WRITE 1
                    (String.list_ascii_of_string "12:34:56 INFO main.c:11: y=7"
                     ++ [newline])).
Proof.
  destruct (line_emitted_whole_iff_fits 30 printf_subset (demo_buf 30)
              demo_event demo_now "INFO")
    as (buf' & out & Hcall & [_ Hfits] & _).
  - unfold buffer_ok, INT_MAX. lia.
  - reflexivity.
  - reflexivity.
  - reflexivity.
  - exists buf'. rewrite Hcall, Hfits; [reflexivity|]. vm_compute. discriminate.
Defined.

(** With 29 bytes the same line, of 28 characters, is cut by one. *)
Example line_of_capacity_minus_one_is_cut :
  snd <$> stdout_callback 29 printf_subset (demo_buf 29) demo_event
  = Some (ASemihost SYS_WRITE 1
            (String.list_ascii_of_string "12:34:56 INFO main.c:11: y="
             ++ [newline])).
Proof. reflexivity. Qed.

(** X2.  The static buffer does not carry anything from one line to the
    next: whatever a buffer of the right size held before, a dispatch
    performs the same actions, the bytes handed to the host included. *)
Theorem dispatch_ignores_previous_buffer C vformat now L buf1 buf2 level file line fmt args :
  buffer_ok C →
  Z.of_nat (length buf1) = C → Z.of_nat (length buf2) = C →
  length (L_callbacks L) = MAX_CALLBACKS →
  dispatch_defined L level →
  ∃ b1 b2 tr,
    log_log C vformat now L buf1 level file line fmt args = Some (b1, tr) ∧
    log_log C vformat now L buf2 level file line fmt args = Some (b2, tr).
Proof.
  intros HC Hlen1 Hlen2 Htab Hdef.
  set (ev := call_event level file line fmt).
  assert (∃ ev1 b1 b2 tp,
            primary_sink C vformat now L buf1 args ev = Some (ev1, b1, tp) ∧
            primary_sink C vformat now L buf2 args ev = Some (ev1, b2, tp))
    as (ev1 & b1 & b2 & tp & Hs1 & Hs2).
  { unfold primary_sink. destruct (L_quiet L) eqn:Hq; [by eexists _, _, _, _|].
    cbn [ev_level ev call_event].
    destruct (Z.leb_spec (L_level L) level) as [Hr|_]; [|by eexists _, _, _, _].
    destruct (proj1 (log_level_string_Some level) (Hdef Hq Hr)) as [lvl Hlvl].
    unfold init_event. cbn [ev_time ev call_event].
    fold (sink_event now args ev).
    destruct (stdout_callback_spec C vformat HC buf1 (sink_event now args ev) now lvl)
      as (b1 & p1 & Hc1 & _); [done..|].
    destruct (stdout_callback_spec C vformat HC buf2 (sink_event now args ev) now lvl)
      as (b2 & p2 & Hc2 & _); [done..|].
    rewrite Hc1, Hc2, !bind_Some. by eexists _, _, _, _. }
  unfold log_log. fold (call_event level file line fmt). fold ev.
  rewrite Hs1, Hs2, !bind_Some.
  rewrite observers_from_all by done. rewrite !bind_Some.
  by eexists _, _, _.
Qed.

Lemma dispatch_ignores_previous_buffer_witness :
  ∃ b1 b2 tr,
    log_log 64 printf_subset demo_now demo_L (demo_buf 64)
      3 "main.c" 42 "x=%d" [VInt 5] = Some (b1, tr) ∧
    log_log 64 printf_subset demo_now demo_L (replicate 64 "#"%char)
      3 "main.c" 42 "x=%d" [VInt 5] = Some (b2, tr).
Proof.
  apply (dispatch_ignores_previous_buffer 64 printf_subset demo_now demo_L
           (demo_buf 64) (replicate 64 "#"%char) 3 "main.c" 42 "x=%d" [VInt 5]).
  - unfold buffer_ok, INT_MAX. lia.
  - reflexivity.
  - reflexivity.
  - reflexivity.
  - intros _ _. lia.
Defined.

(** X3.  The time field follows the capacity: with ten bytes or more the
    line starts with the whole of HH:MM:SS; with nine, [strftime] succeeds
    but only seven of its characters are sent; with eight or fewer it
    fails and the line has no time at all, only the space and what fits of
    the level name. *)
Theorem time_field_by_capacity C vformat buf ev t lvl :
  buffer_ok C → Z.of_nat (length buf) = C →
  ev_time ev = Some t → log_level_string (ev_level ev) = Some lvl →
  ∃ buf' out,
    stdout_callback C vformat buf ev = Some (buf', ASemihost SYS_WRITE 1 out) ∧
    (10 <= C → take 8 out = hms t) ∧
    (C = 9 → out = take 7 (hms t) ++ [newline]) ∧
    (C <= 8 → out = take (Z.to_nat (C - 2)) (" "%char :: cstr lvl ++ [" "%char])
                    ++ [newline]).
Proof.
  intros HC Hlen Ht Hlvl.
  destruct (stdout_callback_spec C vformat HC buf ev t lvl Hlen Ht Hlvl)
    as (buf' & pos & Hcall & _).
  eexists buf', _. split; [exact Hcall|].
  unfold buffer_ok in HC. unfold line_text, time_text. split_and!.
  - intros HC10. assert ((8 <? C) = true) as -> by lia.
    rewrite take_app_le by (rewrite length_take, length_app, length_hms; lia).
    rewrite take_take, take_app_length'; [done|]. rewrite length_hms. lia.
  - intros ->. change (8 <? 9) with true. change (Z.to_nat (9 - 2)) with 7%nat.
    by rewrite take_app_le by (rewrite length_hms; lia).
  - intros HC8. assert ((8 <? C) = false) as -> by lia.
    f_equal. cbn [app].
    destruct (Z.to_nat (C - 2)) as [|n] eqn:Hn; [done|].
    cbn [take]. f_equal.
    rewrite (cons_middle " "%char (cstr lvl)), app_assoc.
    rewrite take_app_le; [done|].
    destruct (level_name_facts _ _ Hlvl) as (-> & _).
    rewrite length_app. cbn [length].
    assert (4 ≤ length (String.list_ascii_of_string lvl))%nat; [|lia].
    clear -Hlvl.
    assert (0 <= ev_level ev < 6) as Hrange by (apply log_level_string_Some; eauto).
    assert (ev_level ev = 0 ∨ ev_level ev = 1 ∨ ev_level ev = 2 ∨ ev_level ev = 3
            ∨ ev_level ev = 4 ∨ ev_level ev = 5) as Hcases by lia.
    destruct Hcases as [H|[H|[H|[H|[H|H]]]]]; rewrite H in Hlvl;
      vm_compute in Hlvl; injection Hlvl as <-;
      cbn [length String.list_ascii_of_string]; lia.
Qed.

Lemma time_field_by_capacity_witness :
  ∃ buf',
    stdout_callback 8 printf_subset (demo_buf 8) demo_event
    = Some (buf', ASemihost SYS_WRITE 1
                    (String.list_ascii_of_string " INFO " ++ [newline])).
Proof.
  destruct (time_field_by_capacity 8 printf_subset (demo_buf 8)
              demo_event demo_now "INFO")
    as (buf' & out & Hcall & _ & _ & Hshort).
  - unfold buffer_ok, INT_MAX. lia.
  - reflexivity.
  - reflexivity.
  - reflexivity.
  - exists buf'. rewrite Hcall, Hshort by lia. reflexivity.
Defined.

Lemma digit_not_nul d : 0 <= d < 10 → digit d ≠ nul.
Proof.
  intros Hd. unfold digit.
  assert (Z.to_nat d < 10)%nat as Hn by lia.
  destruct (Z.to_nat d) as [|[|[|[|[|[|[|[|[|[|n]]]]]]]]]]; try discriminate. lia.
Qed.

Lemma hms_no_nul t : nul ∉ hms t.
Proof.
  unfold hms, two_digits. cbn [app].
  rewrite !not_elem_of_cons. split_and!;
    try discriminate; try (apply not_eq_sym, digit_not_nul, Z.mod_pos_bound; lia).
  apply not_elem_of_nil.
Qed.

Lemma udigits_no_nul fuel : ∀ n acc, nul ∉ acc → nul ∉ udigits fuel n acc.
Proof.
  induction fuel as [|fuel IH]; intros n acc Hacc; [done|].
  assert (nul ∉ digit (n mod 10) :: acc) as Hacc'.
  { apply not_elem_of_cons. split; [|done].
    apply not_eq_sym, digit_not_nul, Z.mod_pos_bound. lia. }
  cbn [udigits]. destruct (n / 10 =? 0); [done|]. by apply IH.
Qed.

Lemma decimal_no_nul v : nul ∉ decimal v.
Proof.
  unfold decimal. destruct (v <? 0).
  - apply not_elem_of_cons. split; [discriminate|].
    apply udigits_no_nul, not_elem_of_nil.
  - apply udigits_no_nul, not_elem_of_nil.
Qed.

Lemma cstr_no_nul s : nul ∉ cstr s.
Proof.
  induction s as [|c s IH]; [apply not_elem_of_nil|]. cbn [cstr].
  destruct (Ascii.eqb_spec c nul) as [->|Hc]; [apply not_elem_of_nil|].
  apply not_elem_of_cons. split; [congruence|done].
Qed.

(** X4.  The terminators that [strftime], [snprintf] and [vsnprintf] write
    into the buffer never reach the host: when the expansion of the message
    holds no NUL, the bytes of the semihosting call hold none. *)
Theorem emitted_bytes_hold_no_terminator C vformat buf ev t lvl :
  buffer_ok C → Z.of_nat (length buf) = C →
  ev_time ev = Some t → log_level_string (ev_level ev) = Some lvl →
  (∀ s, vformat (ev_fmt ev) (ev_ap ev) = Some s → nul ∉ s) →
  ∃ buf' out,
    stdout_callback C vformat buf ev = Some (buf', ASemihost SYS_WRITE 1 out) ∧
    nul ∉ out.
Proof.
  intros HC Hlen Ht Hlvl Hmsg.
  destruct (stdout_callback_spec C vformat HC buf ev t lvl Hlen Ht Hlvl)
    as (buf' & pos & Hcall & _).
  eexists buf', _. split; [exact Hcall|].
  assert (nul ∉ line_text C vformat ev t lvl) as Htext.
  { unfold line_text, time_text, message_text.
    rewrite !not_elem_of_app. split_and!.
    - destruct (8 <? C); [apply hms_no_nul|apply not_elem_of_nil].
    - rewrite not_elem_of_cons. split; [discriminate|apply not_elem_of_nil].
    - apply cstr_no_nul.
    - rewrite not_elem_of_cons. split; [discriminate|apply not_elem_of_nil].
    - apply cstr_no_nul.
    - rewrite not_elem_of_cons. split; [discriminate|apply not_elem_of_nil].
    - apply decimal_no_nul.
    - rewrite !not_elem_of_cons. split; [discriminate|].
      split; [discriminate|apply not_elem_of_nil].
    - destruct (vformat (ev_fmt ev) (ev_ap ev)) as [s|]; [|apply not_elem_of_nil].
      destruct (Z.of_nat (length s) <=? INT_MAX); [|apply not_elem_of_nil].
      by apply Hmsg. }
  rewrite not_elem_of_app. split.
  - intros Hin. apply Htext. eapply subseteq_take, Hin.
  - rewrite not_elem_of_cons. split; [discriminate|apply not_elem_of_nil].
Qed.

Lemma emitted_bytes_hold_no_terminator_witness :
  ∃ buf' out,
    stdout_callback 16 printf_subset (demo_buf 16) demo_event
    = Some (buf', ASemihost SYS_WRITE 1 out) ∧ nul ∉ out.
Proof.
  apply (emitted_bytes_hold_no_terminator 16 printf_subset (demo_buf 16)
           demo_event demo_now "INFO").
  - unfold buffer_ok, INT_MAX. lia.
  - reflexivity.
  - reflexivity.
  - reflexivity.
  - intros s [= <-]. vm_compute. intros Hin.
    repeat (apply elem_of_cons in Hin as [Hin|Hin]; [discriminate|]).
    by apply elem_of_nil in Hin.
Defined.

(** X5.  The header does not depend on the message: the bytes sent start
    with what fits of [HH:MM:SS LEVEL file:line: ], and when the expansion
    of the message fails the line is still sent, as that header and the
    newline. *)
Theorem header_sent_whatever_the_message C vformat buf ev t lvl :
  buffer_ok C → Z.of_nat (length buf) = C →
  ev_time ev = Some t → log_level_string (ev_level ev) = Some lvl →
  ∃ buf' out,
    stdout_callback C vformat buf ev = Some (buf', ASemihost SYS_WRITE 1 out) ∧
    take (Z.to_nat (C - 2)) (header_text C ev t lvl) `prefix_of` out ∧
    (vformat (ev_fmt ev) (ev_ap ev) = None →
     out = take (Z.to_nat (C - 2)) (header_text C ev t lvl) ++ [newline]).
Proof.
  intros HC Hlen Ht Hlvl.
  destruct (stdout_callback_spec C vformat HC buf ev t lvl Hlen Ht Hlvl)
    as (buf' & pos & Hcall & _).
  eexists buf', _. split; [exact Hcall|].
  rewrite line_text_header. split.
  - rewrite take_app, <- app_assoc. by apply prefix_app_r.
  - intros Hfail. unfold message_text. by rewrite Hfail, app_nil_r.
Qed.

Lemma header_sent_whatever_the_message_witness :
  ∃ buf',
    stdout_callback 64 printf_subset (demo_buf 64)
      {| ev_ap := []; ev_fmt := "y=%d"; ev_file := "main.c";
         ev_time := Some demo_now; ev_udata := 0; ev_line := 11; ev_level := 2 |}
    = Some (buf', ASemihost SYS_WRITE 1
                    (String.list_ascii_of_string "12:34:56 INFO main.c:11: "
                     ++ [newline])).
Proof.
  destruct (header_sent_whatever_the_message 64 printf_subset (demo_buf 64)
              {| ev_ap := []; ev_fmt := "y=%d"; ev_file := "main.c";
                 ev_time := Some demo_now; ev_udata := 0; ev_line := 11;
                 ev_level := 2 |} demo_now "INFO")
    as (buf' & out & Hcall & _ & Hfail).
  - unfold buffer_ok, INT_MAX. lia.
  - reflexivity.
  - reflexivity.
  - reflexivity.
  - exists buf'. rewrite Hcall, Hfail; reflexivity.
Defined.

(** * Further properties of the dispatcher *)

(** The trace of a dispatch that enters the primary sink, in full. *)
Lemma log_log_firing C vformat now L buf level file line fmt args lvl :
  buffer_ok C → Z.of_nat (length buf) = C →
  length (L_callbacks L) = MAX_CALLBACKS →
  L_quiet L = false → L_level L <= level →
  log_level_string level = Some lvl →
  ∃ buf',
    log_log C vformat now L buf level file line fmt args
    = Some (buf',
            lock L
            ++ [ARead FQuiet; ARead FLevel; AClock;
                ASemihost SYS_WRITE 1
                  (rendered_line C vformat now args
                     (call_event level file line fmt) lvl)]
            ++ (visit 0 now args
                  (sink_event now args (call_event level file line fmt))
                  (visited (L_callbacks L))
                ++ closing_read (L_callbacks L))
            ++ unlock L) ∧
    Z.of_nat (length buf') = C.
Proof.
  intros HC Hlen Htab Hq Hr Hlvl.
  set (ev := call_event level file line fmt).
  destruct (stdout_callback_spec C vformat HC buf (sink_event now args ev) now lvl)
    as (buf' & pos & Hcall & Hlen' & _); [done..|].
  exists buf'. split; [|done].
  assert (primary_sink C vformat now L buf args ev
          = Some (sink_event now args ev, buf',
                  [ARead FQuiet; ARead FLevel; AClock;
                   ASemihost SYS_WRITE 1 (rendered_line C vformat now args ev lvl)]))
    as Hsink.
  { unfold primary_sink. rewrite Hq. cbn [ev_level ev call_event].
    assert ((L_level L <=? level) = true) as -> by (by apply Z.leb_le).
    unfold init_event. cbn [ev_time ev call_event].
    fold (sink_event now args ev). by rewrite Hcall, bind_Some. }
  unfold log_log. fold (call_event level file line fmt). fold ev.
  rewrite Hsink, bind_Some.
  rewrite observers_from_all by done. by rewrite bind_Some.
Qed.

(** The part of a dispatch between the two hook calls depends on the quiet
    flag, the threshold and the table only. *)
Lemma log_log_between_hooks C vformat now L buf level file line fmt args :
  buffer_ok C → Z.of_nat (length buf) = C →
  length (L_callbacks L) = MAX_CALLBACKS → dispatch_defined L level →
  ∃ buf' mid,
    (∀ L', L_quiet L' = L_quiet L → L_level L' = L_level L →
           L_callbacks L' = L_callbacks L →
           log_log C vformat now L' buf level file line fmt args
           = Some (buf', lock L' ++ mid ++ unlock L')) ∧
    filter is_hook mid = [].
Proof.
  intros HC Hlen Htab Hdef.
  destruct (log_log_shape C vformat HC now L buf level file line fmt args)
    as (buf' & sink_part & ev1 & Hlog & _ & Hsilent & _); [done..|].
  unfold log_log in Hlog. fold (call_event level file line fmt) in Hlog.
  destruct (primary_sink C vformat now L buf args _) as [[[ev2 b2] t2]|] eqn:Hsink;
    [|done].
  rewrite bind_Some in Hlog.
  destruct (observers_from MAX_CALLBACKS 0 now (L_callbacks L) args ev2)
    as [t_obs|] eqn:Hobs; [|done].
  rewrite bind_Some in Hlog. injection Hlog as -> Htr.
  apply app_inv_head in Htr. rewrite !app_assoc in Htr.
  apply app_inv_tail in Htr.
  exists buf', (t2 ++ t_obs). split.
  - intros L' Hq Hl Hcbs. unfold log_log.
    fold (call_event level file line fmt).
    assert (primary_sink C vformat now L' buf args (call_event level file line fmt)
            = Some (ev2, buf', t2)) as ->.
    { rewrite <- Hsink. unfold primary_sink. by rewrite Hq, Hl. }
    rewrite bind_Some, Hcbs, Hobs, bind_Some. by rewrite <- app_assoc.
  - rewrite Htr, <- app_assoc, !filter_app, Hsilent.
    rewrite visit_only_observers by silent.
    by rewrite closing_read_silent by silent.
Qed.

(** X6.  [log_set_lock] decides the hook calls of the dispatches that
    follow: none after a null function, else one call to acquire before
    everything else and one to release after it, with the function and the
    user data given last.  The buffer and what lies between the two calls
    are those of a dispatch before [log_set_lock]. *)
Theorem hook_calls_follow_log_set_lock
    C vformat now L buf fn udata level file line fmt args :
  buffer_ok C → Z.of_nat (length buf) = C →
  length (L_callbacks L) = MAX_CALLBACKS → dispatch_defined L level →
  ∃ buf' mid,
    log_log C vformat now L buf level file line fmt args
    = Some (buf', lock L ++ mid ++ unlock L) ∧
    log_log C vformat now (log_set_lock fn udata L) buf level file line fmt args
    = Some (buf',
            (if fn =? 0 then [ARead FLock]
             else [ARead FLock; ARead FUdata; ALockHook fn true udata])
            ++ mid
            ++ (if fn =? 0 then [ARead FLock]
                else [ARead FLock; ARead FUdata; ALockHook fn false udata])) ∧
    filter is_hook mid = [].
Proof.
  intros HC Hlen Htab Hdef.
  destruct (log_log_between_hooks C vformat now L buf level file line fmt args)
    as (buf' & mid & Hlog & Hmid); [done..|].
  exists buf', mid. split; [by apply Hlog|]. split; [|done].
  rewrite (Hlog (log_set_lock fn udata L)) by done.
  unfold lock, unlock, call_lock_hook. cbn [L_lock L_udata log_set_lock].
  by destruct (fn =? 0).
Qed.

Lemma hook_calls_follow_log_set_lock_witness :
  ∃ buf' mid,
    log_log 64 printf_subset demo_now demo_L (demo_buf 64)
      4 "main.c" 10 "hot" []
    = Some (buf', lock demo_L ++ mid ++ unlock demo_L) ∧
    log_log 64 printf_subset demo_now (log_set_lock 0 0 demo_L) (demo_buf 64)
      4 "main.c" 10 "hot" []
    = Some (buf', [ARead FLock] ++ mid ++ [ARead FLock]) ∧
    filter is_hook mid = [].
Proof.
  apply (hook_calls_follow_log_set_lock 64 printf_subset demo_now demo_L
           (demo_buf 64) 0 0 4 "main.c" 10 "hot" []).
  - unfold buffer_ok, INT_MAX. lia.
  - reflexivity.
  - reflexivity.
  - intros _ _. lia.
Defined.

(** Once the time of the event is resolved, the loop does not consult the
    clock. *)
Lemma visit_clock_resolved now args occ : ∀ i ev t,
  ev_time ev = Some t → filter is_clock (visit i now args ev occ) = [].
Proof.
  induction occ as [|cb occ IH]; intros i ev t Ht; [done|]. cbn [visit].
  destruct (cb_level cb <=? ev_level ev).
  - rewrite filter_cons_False by silent. rewrite filter_app.
    unfold init_event. rewrite Ht. cbn [snd]. rewrite filter_nil, app_nil_l.
    rewrite filter_cons_False by silent.
    by apply (IH _ _ (default now (ev_time ev))).
  - rewrite filter_cons_False by silent. by apply (IH _ _ t).
Qed.

(** With the time unresolved, the first entry the event qualifies for
    consults the clock. *)
Lemma visit_clock_unresolved now args occ : ∀ i ev,
  ev_time ev = None →
  filter is_clock (visit i now args ev occ)
  = if existsb (λ cb, cb_level cb <=? ev_level ev) occ then [AClock] else [].
Proof.
  induction occ as [|cb occ IH]; intros i ev Ht; [done|]. cbn [visit existsb].
  destruct (cb_level cb <=? ev_level ev).
  - rewrite filter_cons_False by silent. rewrite filter_app.
    unfold init_event. rewrite Ht. cbn [snd orb].
    rewrite filter_cons_True by done. rewrite filter_nil.
    rewrite filter_cons_False by silent.
    by rewrite (visit_clock_resolved now args occ _ _ now)
      by (cbn [ev_time observer_event]; by rewrite Ht).
  - rewrite filter_cons_False by silent. cbn [orb]. by apply IH.
Qed.

(** X7.  A dispatch consults the clock at most once, and exactly when
    something consumes the event: the primary sink, or an entry the loop
    reaches whose minimum level the event has.  A dispatch that nothing
    consumes does not read the time.  ([localtime] is taken to succeed, as
    everywhere in this development.) *)
Theorem clock_consulted_once_iff_consumed
    C vformat now L buf level file line fmt args :
  buffer_ok C → Z.of_nat (length buf) = C →
  length (L_callbacks L) = MAX_CALLBACKS → dispatch_defined L level →
  ∃ buf' tr,
    log_log C vformat now L buf level file line fmt args = Some (buf', tr) ∧
    filter is_clock tr = if some_consumer L level then [AClock] else [].
Proof.
  intros HC Hlen Htab Hdef. unfold some_consumer.
  destruct (decide (L_quiet L = false ∧ L_level L <= level)) as [[Hq Hr]|Hskip].
  - destruct (proj1 (log_level_string_Some level) (Hdef Hq Hr)) as [lvl Hlvl].
    destruct (log_log_firing C vformat now L buf level file line fmt args lvl)
      as (buf' & Hlog & _); [done..|].
    eexists buf', _. split; [exact Hlog|].
    rewrite Hq. assert ((L_level L <=? level) = true) as -> by (by apply Z.leb_le).
    cbn [negb andb orb].
    unfold lock, unlock. rewrite !filter_app, !lock_hook_silent by silent.
    rewrite (visit_clock_resolved now args _ _ _ now) by done.
    by rewrite closing_read_silent by silent.
  - rewrite log_log_skipping by done.
    eexists buf, _. split; [reflexivity|].
    unfold lock, unlock. rewrite !filter_app, !lock_hook_silent by silent.
    rewrite visit_clock_unresolved by done.
    rewrite closing_read_silent by silent.
    cbn [ev_level call_event]. rewrite !app_nil_r.
    destruct (L_quiet L); cbn [negb andb orb].
    + by rewrite filter_cons_False by silent.
    + destruct (Z.leb_spec (L_level L) level) as [Hr|_]; [by destruct Hskip|].
      cbn [orb]. by rewrite !filter_cons_False by silent.
Qed.

Lemma clock_consulted_once_iff_consumed_witness :
  ∃ buf' tr,
    log_log 64 printf_subset demo_now (log_set_quiet true demo_L) (demo_buf 64)
      2 "main.c" 10 "idle" [] = Some (buf', tr) ∧
    filter is_clock tr = [].
Proof.
  apply (clock_consulted_once_iff_consumed 64 printf_subset demo_now
           (log_set_quiet true demo_L) (demo_buf 64) 2 "main.c" 10 "idle" []).
  - unfold buffer_ok, INT_MAX. lia.
  - reflexivity.
  - reflexivity.
  - intros Hquiet. discriminate Hquiet.
Defined.

(** X8.  At a level that names no entry of [level_strings], a dispatch is
    defined exactly when the primary sink is skipped, by the quiet flag or
    by the threshold: the observers are still served, but an event that
    reaches the formatter reads the table of names out of bounds. *)
Theorem unknown_level_defined_iff_sink_skipped
    C vformat now L buf level file line fmt args :
  buffer_ok C → Z.of_nat (length buf) = C →
  length (L_callbacks L) = MAX_CALLBACKS →
  ¬ (0 <= level < 6) →
  (is_Some (log_log C vformat now L buf level file line fmt args)
   ↔ L_quiet L = true ∨ level < L_level L) ∧
  (L_quiet L = true ∨ level < L_level L →
   ∃ tr,
     log_log C vformat now L buf level file line fmt args = Some (buf, tr) ∧
     filter is_observer tr
     = observer_events 0 now args (call_event level file line fmt)
         (visited (L_callbacks L))).
Proof.
  intros HC Hlen Htab Hlevel.
  assert (L_quiet L = true ∨ level < L_level L
          ↔ ¬ (L_quiet L = false ∧ L_level L <= level)) as Hskip.
  { destruct (L_quiet L); split.
    - by intros _ [? _].
    - intros _. by left.
    - intros [?|?] [_ ?]; [done|lia].
    - intros H. right.
      destruct (Z.lt_ge_cases level (L_level L)); [done|]. by destruct H. }
  split.
  - split.
    + intros [r Hlog]. apply Hskip. intros [Hq Hr].
      by rewrite (log_log_unknown_level C vformat HC) in Hlog.
    + intros Hs%Hskip. by rewrite log_log_skipping.
  - intros Hs%Hskip. rewrite log_log_skipping by done.
    eexists. split; [reflexivity|].
    unfold lock, unlock. rewrite !filter_app, !lock_hook_silent by silent.
    rewrite visit_observers.
    rewrite closing_read_silent by silent.
    rewrite !app_nil_r. destruct (L_quiet L); reflexivity.
Qed.

Lemma unknown_level_defined_iff_sink_skipped_witness :
  log_log 64 printf_subset demo_now demo_L (demo_buf 64) 6 "main.c" 10 "odd" []
  = None.
Proof.
  destruct (unknown_level_defined_iff_sink_skipped 64 printf_subset demo_now
              demo_L (demo_buf 64) 6 "main.c" 10 "odd" []) as [[Hdef _] _].
  - unfold buffer_ok, INT_MAX. lia.
  - reflexivity.
  - reflexivity.
  - lia.
  - destruct (log_log 64 printf_subset demo_now demo_L (demo_buf 64) 6
                "main.c" 10 "odd" []) as [r|] eqn:Hlog; [|reflexivity].
    destruct (Hdef (mk_is_Some _ _ eq_refl)) as [Hq|Hl].
    + discriminate Hq.
    + vm_compute in Hl. discriminate Hl.
Defined.

(** X9.  A logger nothing has configured writes every message of a level
    of the table: no hook is called, the threshold lets the level pass, the
    clock is read once, one line goes to the host, and the walk over the
    table stops at its first slot. *)
Theorem fresh_logger_writes_every_level
    C vformat now buf level file line fmt args lvl :
  buffer_ok C → Z.of_nat (length buf) = C →
  log_level_string level = Some lvl →
  ∃ buf',
    log_log C vformat now L_init buf level file line fmt args
    = Some (buf',
            [ARead FLock; ARead FQuiet; ARead FLevel; AClock;
             ASemihost SYS_WRITE 1
               (take (Z.to_nat (C - 2))
                  (line_text C vformat
                     {| ev_ap := args; ev_fmt := fmt; ev_file := file;
                        ev_time := Some now; ev_udata := 0; ev_line := line;
                        ev_level := level |} now lvl)
                ++ [newline]);
             ARead (FCallback 0); ARead FLock]).
Proof.
  intros HC Hlen Hlvl.
  assert (0 <= level < 6) as Hrange by (apply log_level_string_Some; eauto).
  destruct (log_log_firing C vformat now L_init buf level file line fmt args lvl)
    as (buf' & Hlog & _); [done..| |done|].
  { cbn [L_level L_init]. lia. }
  exists buf'. rewrite Hlog. reflexivity.
Qed.

Lemma fresh_logger_writes_every_level_witness :
  ∃ buf',
    log_log 64 printf_subset demo_now L_init (demo_buf 64)
      0 "main.c" 3 "boot" []
    = Some (buf',
            [ARead FLock; ARead FQuiet; ARead FLevel; AClock;
             ASemihost SYS_WRITE 1
               (String.list_ascii_of_string "12:34:56 TRACE main.c:3: boot"
                ++ [newline]);
             ARead (FCallback 0); ARead FLock]).
Proof.
  apply (fresh_logger_writes_every_level 64 printf_subset demo_now (demo_buf 64)
           0 "main.c" 3 "boot" [] "TRACE").
  - unfold buffer_ok, INT_MAX. lia.
  - reflexivity.
  - reflexivity.
Defined.

(** * Further properties of the registry and of runs *)

(** X10.  After any run of the public operations, a registration returns 0
    when fewer than [MAX_CALLBACKS] registrations of the run named a
    function, and otherwise returns -1 and leaves the state as it was:
    null registrations use up no room, and nothing ever frees a slot. *)
Theorem registration_result_after_run C vformat cs W fn udata level :
  exec_calls C vformat cs (W_init C) = Some W →
  ∃ L',
    log_add_callback fn udata level (W_L W)
    = Some (L', if bool_decide (length (registrations cs) < MAX_CALLBACKS)%nat
                then 0 else -1) ∧
    ((MAX_CALLBACKS ≤ length (registrations cs))%nat → L' = W_L W).
Proof.
  intros Hrun. pose proof (run_packed C vformat cs W Hrun) as Hpacked.
  pose proof (packed_occupied _ _ Hpacked) as Hocc.
  destruct Hpacked as (free & Hcbs & Hset & Hfree & Hlen).
  case_bool_decide as Hroom.
  - rewrite take_ge in Hocc by lia.
    destruct (first_unset_slot (L_callbacks (W_L W))) as (c & post & Hsplit & Hc & Hvis).
    { rewrite Hocc, Hlen. exact Hroom. }
    eexists. split; [by eapply log_add_callback_free|]. lia.
  - assert (free = []) as ->.
    { apply (f_equal length) in Hcbs.
      rewrite length_app, length_take, Hlen in Hcbs.
      apply nil_length_inv. lia. }
    rewrite app_nil_r in Hcbs. rewrite <- Hcbs in Hset.
    exists (W_L W). split; [|done]. unfold log_add_callback.
    rewrite (add_callback_from_full MAX_CALLBACKS 0 _ _ Hset) by (by rewrite Hlen).
    by rewrite bind_Some, set_callbacks_same.
Qed.

Lemma registration_result_after_run_witness :
  ∃ L',
    log_add_callback 300 3 0 demo_L
    = Some (L', if bool_decide (length (registrations demo_calls) < MAX_CALLBACKS)%nat
                then 0 else -1) ∧
    ((MAX_CALLBACKS ≤ length (registrations demo_calls))%nat → L' = demo_L).
Proof.
  apply (registration_result_after_run 64 printf_subset demo_calls demo_W 300 3 0).
  reflexivity.
Defined.

(** X11.  A registration is permanent: whatever the public operations do
    afterwards, a slot that holds an observer keeps its function, its user
    data and its minimum level.  The interface can neither remove nor
    replace an observer. *)
Theorem registered_entries_are_permanent C vformat cs cs' W W' i cb :
  exec_calls C vformat cs (W_init C) = Some W →
  exec_calls C vformat cs' W = Some W' →
  L_callbacks (W_L W) !! i = Some cb → cb_fn cb ≠ 0 →
  L_callbacks (W_L W') !! i = Some cb.
Proof.
  intros Hrun Hrun' Hi Hset.
  pose proof (run_packed C vformat cs W Hrun) as Hpacked.
  pose proof (packed_lookup_set _ _ i cb Hpacked Hi Hset) as Hocc.
  pose proof (packed_length _ _ Hpacked) as Hle.
  destruct (exec_calls_packed C vformat cs' W W' _ Hpacked Hrun')
    as (free & -> & _).
  apply lookup_app_l_Some.
  pose proof (lookup_lt_Some _ _ _ Hocc) as Hlt.
  rewrite lookup_take_lt by lia. by apply lookup_app_l_Some.
Qed.

Lemma registered_entries_are_permanent_witness :
  L_callbacks
    (W_L (default demo_W
            (exec_calls 64 printf_subset
               [CAddCallback 0 0 0; CAddCallback 300 3 0; CSetQuiet true] demo_W)))
    !! 1%nat
  = Some {| cb_fn := 200; cb_udata := 2; cb_level := 4 |}.
Proof.
  apply (registered_entries_are_permanent 64 printf_subset demo_calls
           [CAddCallback 0 0 0; CAddCallback 300 3 0; CSetQuiet true] demo_W).
  - reflexivity.
  - reflexivity.
  - reflexivity.
  - discriminate.
Defined.

Lemma exec_call_defined C vformat c W occ :
  buffer_ok C → level_in_table c →
  packed (L_callbacks (W_L W)) occ → Z.of_nat (length (W_buf W)) = C →
  is_Some (exec_call C vformat c W).
Proof.
  intros HC Hc Hpacked Hlen. destruct c; cbn [exec_call level_in_table] in *.
  1-3: done.
  - destruct (add_callback_packed
                {| cb_fn := fn; cb_udata := udata; cb_level := level |}
                _ _ Hpacked) as (cbs' & r & Hadd & _).
    unfold log_add_callback. by rewrite Hadd, !bind_Some.
  - destruct Hpacked as (free & _ & _ & _ & Htab).
    destruct (log_log_shape C vformat HC now (W_L W) (W_buf W) level file line fmt args)
      as (buf' & sink_part & ev1 & Hlog & _); [done..| |].
    { by intros _ _. }
    by rewrite Hlog, bind_Some.
  - destruct (proj1 (log_level_string_Some level) Hc) as [s ->].
    by rewrite bind_Some.
Qed.

(** X12.  The interface is safe on the levels of the table: from the
    initial state, a run of the public operations whose dispatches and name
    lookups all use a level between 0 and 5 is defined to its end: no store
    leaves the buffer and no read leaves a table, whatever the settings, the
    length of the messages and the number of registrations.  (The hook, the
    observers and the C library are taken to keep their contracts.) *)
Theorem run_on_table_levels_is_defined C vformat cs :
  buffer_ok C → Forall level_in_table cs →
  is_Some (exec_calls C vformat cs (W_init C)).
Proof.
  intros HC Hcs.
  assert (∀ W occ, packed (L_callbacks (W_L W)) occ →
                   Z.of_nat (length (W_buf W)) = C →
                   is_Some (exec_calls C vformat cs W)) as Hgen.
  { induction Hcs as [|c cs Hc Hcs IH]; intros W occ Hpacked Hlen; [done|].
    destruct (exec_call_defined C vformat c W occ HC Hc Hpacked Hlen) as [W1 Hstep].
    cbn [exec_calls]. rewrite Hstep, bind_Some.
    assert (exec_calls C vformat [c] W = Some W1) as Hone.
    { cbn [exec_calls]. by rewrite Hstep, bind_Some. }
    eapply IH.
    - exact (exec_calls_packed C vformat [c] W W1 occ Hpacked Hone).
    - exact (exec_calls_buf_length C vformat HC [c] W W1 Hlen Hone). }
  apply (Hgen (W_init C) []); [apply packed_init|].
  by apply W_init_buf_length.
Qed.

Lemma run_on_table_levels_is_defined_witness :
  is_Some (exec_calls 64 printf_subset
             (demo_calls ++ [CLog demo_now 5 "main.c" 10 "halt %s" [VStr "now"];
                             CLevelString 5])
             (W_init 64)).
Proof.
  apply (run_on_table_levels_is_defined 64 printf_subset).
  - unfold buffer_ok, INT_MAX. lia.
  - repeat constructor; cbn [level_in_table]; lia.
Defined.

Lemma exec_calls_settings C vformat cs : ∀ W W',
  exec_calls C vformat cs W = Some W' →
  L_level (W_L W') = last_level cs (L_level (W_L W)) ∧
  L_quiet (W_L W') = last_quiet cs (L_quiet (W_L W)).
Proof.
  induction cs as [|c cs IH]; intros W W' Hrun; cbn [exec_calls] in Hrun.
  - by injection Hrun as <-.
  - destruct (exec_call C vformat c W) as [W1|] eqn:Hstep; [|done].
    rewrite bind_Some in Hrun. destruct (IH W1 W' Hrun) as [-> ->].
    unfold last_level, last_quiet. cbn [foldl].
    destruct c; cbn [exec_call] in Hstep.
    1-3: by injection Hstep as <-.
    + unfold log_add_callback in Hstep.
      destruct (add_callback_from _ _ _ _) as [[cbs r]|]; [|done].
      rewrite bind_Some in Hstep. by injection Hstep as <-.
    + destruct (log_log _ _ _ _ _ _ _ _ _ _) as [[buf tr]|]; [|done].
      rewrite bind_Some in Hstep. by injection Hstep as <-.
    + destruct (log_level_string level); [|done]. by injection Hstep as <-.
Qed.

(** X13.  After any run of the public operations, a message of a level of
    the table is written to the host exactly when the last
    [log_set_quiet] of the run, if any, cleared the flag and the level
    reaches the threshold of the last [log_set_level], by default 0:
    registrations, dispatches and name lookups change neither. *)
Theorem written_iff_last_settings_allow
    C vformat cs W now level file line fmt args lvl :
  buffer_ok C → exec_calls C vformat cs (W_init C) = Some W →
  log_level_string level = Some lvl →
  ∃ buf' tr,
    log_log C vformat now (W_L W) (W_buf W) level file line fmt args
    = Some (buf', tr) ∧
    filter is_sink tr
    = if negb (last_quiet cs false) && (last_level cs 0 <=? level)
      then [ASemihost SYS_WRITE 1
              (rendered_line C vformat now args
                 (call_event level file line fmt) lvl)]
      else [].
Proof.
  intros HC Hrun Hlvl.
  destruct (exec_calls_settings C vformat cs _ _ Hrun) as [Hl Hq].
  cbn [L_level L_quiet W_L W_init L_init] in Hl, Hq. rewrite <- Hl, <- Hq.
  pose proof (run_packed C vformat cs W Hrun) as (free & _ & _ & _ & Htab).
  pose proof (exec_calls_buf_length C vformat HC cs _ _
                (W_init_buf_length C HC) Hrun) as Hlen.
  destruct (log_log_spec C vformat HC now (W_L W) (W_buf W) level file line fmt
              args lvl) as (buf' & ev1 & Hlog & _); [done..|].
  eexists buf', _. split; [exact Hlog|].
  unfold lock, unlock. rewrite !filter_app, !lock_hook_silent by silent.
  rewrite primary_trace_sink.
  rewrite visit_only_observers by silent.
  rewrite closing_read_silent by silent.
  by rewrite !app_nil_r.
Qed.

Lemma written_iff_last_settings_allow_witness :
  ∃ buf' tr,
    log_log 64 printf_subset demo_now demo_L (demo_buf 64)
      2 "main.c" 11 "y=%d" [VInt 7] = Some (buf', tr) ∧
    filter is_sink tr
    = [ASemihost SYS_WRITE 1
         (String.list_ascii_of_string "12:34:56 INFO main.c:11: y=7"
          ++ [newline])].
Proof.
  apply (written_iff_last_settings_allow 64 printf_subset demo_calls demo_W
           demo_now 2 "main.c" 11 "y=%d" [VInt 7] "INFO").
  - unfold buffer_ok, INT_MAX. lia.
  - reflexivity.
  - reflexivity.
Defined.

(** X14.  The level names identify the levels: [log_level_string] is
    defined on 0..5 only, and no two levels share a name. *)
Theorem level_names_identify_levels a s :
  log_level_string a = Some s →
  0 <= a < 6 ∧ ∀ b, log_level_string b = Some s → b = a.
Proof.
  intros Ha. split; [apply log_level_string_Some; eauto|].
  intros b Hb. unfold log_level_string in Ha, Hb.
  destruct (Z.leb_spec 0 a); [|done]. destruct (Z.leb_spec 0 b); [|done].
  assert (NoDup level_strings) as Hnodup.
  { apply (bool_decide_unpack (NoDup level_strings)). vm_compute. exact I. }
  pose proof (NoDup_lookup _ _ _ _ Hnodup Ha Hb). lia.
Qed.

Lemma level_names_identify_levels_witness :
  0 <= 3 < 6 ∧ ∀ b, log_level_string b = Some "WARN"%string → b = 3.
Proof. apply (level_names_identify_levels 3 "WARN"). reflexivity. Defined.
